(** * Redactor (Obsidian plugin): token-map lifecycle and orchestration

    A shallow embedding of [src/main.ts]: the three user-triggered
    orchestrations ([redactFile], [restoreCurrentNote],
    [redactSelectedText]), the health poll ([updateServerStatus]) and the
    vault helpers they use, followed by the properties the specification
    states about them.

    The plugin is effectful: it reads and writes the vault, talks to the
    local detection service, mutates the editor and shows notices.  The
    embedding threads an explicit [World] through a small state-and-exception
    monad; everything the plugin cannot decide by itself (the service's
    replies, whether a vault call rejects, the clock, the JavaScript
    built-ins [JSON.parse] / [JSON.stringify] / [toLowerCase]) is gathered in
    a [Host] record over which the theorems quantify. *)

From stdpp Require Import base option list strings gmap pretty.
From Stdlib Require Import Ascii ZArith Lia.


(** ** JavaScript string primitives used by the source *)

Module JsString.

Definition slash : ascii := "/"%char.

(** [s.includes("/")] *)
Fixpoint includes (c : ascii) (s : string) : bool :=
  match s with
  | EmptyString => false
  | String a s' => if decide (a = c) then true else includes c s'
  end.

(** [s.lastIndexOf("/")], [None] standing for [-1]. *)
Fixpoint lastIndexOf (c : ascii) (s : string) : option nat :=
  match s with
  | EmptyString => None
  | String a s' =>
      match lastIndexOf c s' with
      | Some i => Some (S i)
      | None => if decide (a = c) then Some 0%nat else None
      end
  end.

(** [s.substring(0, n)] *)
Fixpoint substring0 (n : nat) (s : string) : string :=
  match n, s with
  | O, _ => EmptyString
  | S n', String a s' => String a (substring0 n' s')
  | S _, EmptyString => EmptyString
  end.

(** [s.split("/")]: never empty, splitting the empty string gives one
    empty part. *)
Fixpoint split (c : ascii) (s : string) : list string :=
  match s with
  | EmptyString => [EmptyString]
  | String a s' =>
      if decide (a = c) then EmptyString :: split c s'
      else match split c s' with
           | p :: ps => String a p :: ps
           | [] => [String a EmptyString]
           end
  end.

(** [s.length > 0] *)
Definition nonempty (s : string) : bool :=
  match s with EmptyString => false | String _ _ => true end.

End JsString.

(** ** Interfaces of [main.ts] *)

(** [Record<string, string>]: a JavaScript object used as a map from token
    to original value; key order plays no role in the source. *)
Abbreviation Tokens := (gmap string string).

Record RedactorSettings := {
  serverUrl : string;
  redactFolder : string;
  restoreFolder : string;
  mapsFolder : string;
  deepScan : bool
}.

Record RedactRequest := { rq_text : string; rq_deep_scan : bool }.

(** [entity_counts] keeps the order in which the service listed the
    categories: [Object.values] and [Object.entries] follow it. *)
Record RedactResponse := {
  redacted_text : string;
  map : Tokens;
  entity_counts : list (string * Z)
}.

(** The [map] field carries [mapData.tokens] as read from disk; the
    declared type is [Record<string, string>] but a map file without a
    [tokens] property yields [undefined] there, hence the option. *)
Record RestoreRequest := { rs_text : string; rs_map : option Tokens }.

Record RestoreResponse := { restored_text : string }.

Record StatusResponse := {
  status : string;
  spacy : bool;
  phi3 : bool;
  model : option string
}.

Record MapFile := {
  file : string;
  created : string;
  tokens : Tokens
}.

Definition DEFAULT_SETTINGS : RedactorSettings :=
  {| serverUrl := "http://localhost:8765";
     redactFolder := "redact/redacted";
     restoreFolder := "redact/reversed";
     mapsFolder := "redact/maps";
     deepScan := false |}.

Definition LABEL_DISPLAY : list (string * string) :=
  [ ("PERSON", "names"); ("COMPANY", "companies"); ("PHONE", "phones");
    ("EMAIL", "emails"); ("ADDRESS", "locations"); ("POSTCODE", "postcodes");
    ("TAX", "tax IDs"); ("NI", "NI numbers"); ("DATE", "dates");
    ("URL", "URLs"); ("CURRENCY", "amounts") ].

(** ** The host: Obsidian, the network and the JavaScript runtime *)

(** A vault file handle ([TFile]): the fields the source reads. *)
Record TFile := { path : string; name : string }.

(** What the vault holds at a path. *)
Inductive Node :=
| File (content : string)
| Folder.

(** What [JSON.parse(raw) as MapFile] evaluates to when it does not throw.
    [JNull] is the JSON text [null], on which any property access raises a
    [TypeError]; every other value is seen through the unchecked cast, with
    [doc_tokens = None] when the [tokens] property is [undefined] or
    [null]. *)
Inductive JsonDoc :=
| JNull
| JMapFile (doc_tokens : option Tokens).

Inductive Body :=
| NoBody
| RedactBody (b : RedactRequest)
| RestoreBody (b : RestoreRequest).

Inductive Err :=
| NetworkError
| IOError (p : string)
| SyntaxError
| TypeError.

(** Behaviour of the outside world during one invocation.  The [_throws]
    fields say which promises of the vault API reject; the three service
    fields give the reply of [requestUrl] at each endpoint read at the type
    the source casts it to, [None] when [requestUrl] rejects (transport
    error, timeout or non-success status). *)
Record Host := {
  service_redact : string -> RedactRequest -> option RedactResponse;
  service_restore : string -> RestoreRequest -> option RestoreResponse;
  service_status : string -> option StatusResponse;
  read_throws : string -> bool;
  modify_throws : string -> bool;
  create_throws : string -> bool;
  createFolder_throws : string -> bool;
  exists_throws : string -> bool;
  openFile_throws : string -> bool;
  now_ISO : string;
  JSON_parse : string -> option JsonDoc;
  JSON_stringify : MapFile -> string;
  toLowerCase : string -> string
}.

(** Observable effects, in the order they happen. *)
Inductive Effect :=
| Notice (msg : string)
| ConsoleError (msg : string)
| Request (url method : string) (body : Body)
| VaultModify (p content : string)
| VaultCreate (p content : string)
| VaultCreateFolder (p : string)
| OpenFile (p : string)
| ReplaceSelection (text : string).

(** The editor around the current selection. *)
Record Editor := {
  ed_before : string;
  ed_selection : string;
  ed_after : string
}.

Record World := {
  serverOnline : bool;
  settings : RedactorSettings;
  vault : gmap string Node;
  activeFile : option TFile;
  editor : Editor;
  statusBarText : string;
  statusBarClasses : list string;
  ribbonColor : string;
  log : list Effect
}.

(** The plugin instance as constructed: [serverOnline = false] is the field
    initialiser of the class, the status bar text is the one [onload] sets
    before the first poll. *)
Definition initial_plugin (s : RedactorSettings) (v : gmap string Node)
    (a : option TFile) (e : Editor) : World :=
  {| serverOnline := false;
     settings := s;
     vault := v;
     activeFile := a;
     editor := e;
     statusBarText := "🔒 Redactor: checking…";
     statusBarClasses := ["redactor-status-bar"];
     ribbonColor := EmptyString;
     log := [] |}.

(** ** State and exceptions *)

Inductive Res (A : Type) :=
| Ok (a : A)
| Throw (e : Err).
Arguments Ok {A} a.
Arguments Throw {A} e.

Definition M (A : Type) : Type := World -> Res A * World.

Definition ret {A} (a : A) : M A := fun w => (Ok a, w).

Definition throw {A} (e : Err) : M A := fun w => (Throw e, w).

Definition bind {A B} (m : M A) (k : A -> M B) : M B :=
  fun w =>
    match m w with
    | (Ok a, w') => k a w'
    | (Throw e, w') => (Throw e, w')
    end.

(** [try { m } catch (err) { ... }]: the outcome of [m] as a value; what [m]
    did before throwing stays done. *)
Definition attempt {A} (m : M A) : M (Err + A) :=
  fun w =>
    match m w with
    | (Ok a, w') => (Ok (inr a), w')
    | (Throw e, w') => (Ok (inl e), w')
    end.

Definition get {A} (f : World -> A) : M A := fun w => (Ok (f w), w).

Definition update (f : World -> World) : M unit := fun w => (Ok tt, f w).

Notation "'let*' x ':=' m 'in' k" := (bind m (fun x => k))
  (at level 10, x name, m at level 100, k at level 200).
Notation "m >> k" := (bind m (fun _ => k))
  (at level 60, right associativity).

Definition exec {A} (m : M A) (w : World) : World := snd (m w).
Definition outcome {A} (m : M A) (w : World) : Res A := fst (m w).

(** Field updates of the world. *)
Definition set_serverOnline (b : bool) (w : World) : World :=
  {| serverOnline := b; settings := settings w; vault := vault w;
     activeFile := activeFile w; editor := editor w;
     statusBarText := statusBarText w;
     statusBarClasses := statusBarClasses w;
     ribbonColor := ribbonColor w; log := log w |}.

Definition set_vault (v : gmap string Node) (w : World) : World :=
  {| serverOnline := serverOnline w; settings := settings w; vault := v;
     activeFile := activeFile w; editor := editor w;
     statusBarText := statusBarText w;
     statusBarClasses := statusBarClasses w;
     ribbonColor := ribbonColor w; log := log w |}.

Definition set_editor (e : Editor) (w : World) : World :=
  {| serverOnline := serverOnline w; settings := settings w; vault := vault w;
     activeFile := activeFile w; editor := e;
     statusBarText := statusBarText w;
     statusBarClasses := statusBarClasses w;
     ribbonColor := ribbonColor w; log := log w |}.

Definition set_statusUI (text : string) (classes : list string)
    (color : string) (w : World) : World :=
  {| serverOnline := serverOnline w; settings := settings w; vault := vault w;
     activeFile := activeFile w; editor := editor w;
     statusBarText := text;
     statusBarClasses := classes;
     ribbonColor := color; log := log w |}.

Definition set_log (l : list Effect) (w : World) : World :=
  {| serverOnline := serverOnline w; settings := settings w; vault := vault w;
     activeFile := activeFile w; editor := editor w;
     statusBarText := statusBarText w;
     statusBarClasses := statusBarClasses w;
     ribbonColor := ribbonColor w; log := l |}.

Definition emit (e : Effect) : M unit :=
  update (fun w => set_log (log w ++ [e]) w).

(** [{ ...a, ...b }]: the own properties of [a], then those of [b] written
    over them.  stdpp's union is left-biased, so [b] goes first. *)
Definition spread (a b : Tokens) : Tokens := b ∪ a.

(** ** Host primitives *)

(** Result of [vault.getAbstractFileByPath], as far as [instanceof TFile]
    tells it apart. *)
Inductive TAbstractFile :=
| IsTFile (f : TFile)
| IsTFolder.

Definition basename (p : string) : string :=
  match JsString.lastIndexOf JsString.slash p with
  | Some i => String.substring (S i) (String.length p - S i) p
  | None => p
  end.

Section Primitives.

Variable host : Host.

(** [new Notice(msg)] *)
Definition new_Notice (msg : string) : M unit := emit (Notice msg).

(** [console.error(msg, err)] *)
Definition console_error (msg : string) : M unit := emit (ConsoleError msg).

Definition getAbstractFileByPath (p : string) : M (option TAbstractFile) :=
  let* v := get vault in
  match v !! p with
  | Some (File _) => ret (Some (IsTFile {| path := p; name := basename p |}))
  | Some Folder => ret (Some IsTFolder)
  | None => ret None
  end.

(** [vault.read(file)] *)
Definition vault_read (f : TFile) : M string :=
  let* v := get vault in
  if read_throws host (path f) then throw (IOError (path f))
  else match v !! path f with
       | Some (File c) => ret c
       | _ => throw (IOError (path f))
       end.

(** [vault.modify(file, content)]: all or nothing. *)
Definition vault_modify (f : TFile) (content : string) : M unit :=
  let* v := get vault in
  if modify_throws host (path f) then throw (IOError (path f))
  else match v !! path f with
       | Some (File _) =>
           update (set_vault (<[path f := File content]> v)) >>
           emit (VaultModify (path f) content)
       | _ => throw (IOError (path f))
       end.

(** [vault.create(path, content)]: rejects when the path is taken. *)
Definition vault_create (p content : string) : M TFile :=
  let* v := get vault in
  if create_throws host p then throw (IOError p)
  else match v !! p with
       | Some _ => throw (IOError p)
       | None =>
           update (set_vault (<[p := File content]> v)) >>
           emit (VaultCreate p content) >>
           ret {| path := p; name := basename p |}
       end.

(** [vault.createFolder(path)]: rejects when the path is taken. *)
Definition vault_createFolder (p : string) : M unit :=
  let* v := get vault in
  if createFolder_throws host p then throw (IOError p)
  else match v !! p with
       | Some _ => throw (IOError p)
       | None =>
           update (set_vault (<[p := Folder]> v)) >>
           emit (VaultCreateFolder p)
       end.

(** [vault.adapter.exists(path)] *)
Definition adapter_exists (p : string) : M bool :=
  let* v := get vault in
  if exists_throws host p then throw (IOError p)
  else ret (bool_decide (is_Some (v !! p))).

(** [workspace.getLeaf("tab").openFile(file)] *)
Definition openFile (f : TFile) : M unit :=
  if openFile_throws host (path f) then throw (IOError (path f))
  else emit (OpenFile (path f)).

(** [requestUrl({url, method, headers, body})] followed by [res.json as T],
    one wrapper per endpoint.  The request is on the wire before its fate
    is known, so it is logged first.  The cast is unchecked in the source;
    the embedding covers the replies that have the declared shape, and a
    body that is not JSON counts as a rejected request. *)
Definition requestUrl_redact (url : string) (b : RedactRequest)
    : M RedactResponse :=
  emit (Request url "POST" (RedactBody b)) >>
  match service_redact host url b with
  | Some r => ret r
  | None => throw NetworkError
  end.

Definition requestUrl_restore (url : string) (b : RestoreRequest)
    : M RestoreResponse :=
  emit (Request url "POST" (RestoreBody b)) >>
  match service_restore host url b with
  | Some r => ret r
  | None => throw NetworkError
  end.

Definition requestUrl_status (url : string) : M StatusResponse :=
  emit (Request url "GET" NoBody) >>
  match service_status host url with
  | Some r => ret r
  | None => throw NetworkError
  end.

(** [JSON.parse(raw)] *)
Definition JSON_parse_raw (raw : string) : M JsonDoc :=
  match JSON_parse host raw with
  | Some d => ret d
  | None => throw SyntaxError
  end.

(** [doc.tokens] *)
Definition get_tokens (d : JsonDoc) : M (option Tokens) :=
  match d with
  | JNull => throw TypeError
  | JMapFile t => ret t
  end.

(** [editor.getSelection()] *)
Definition getSelection : M string := get (fun w => ed_selection (editor w)).

(** [editor.replaceSelection(text)]: the text takes the place of the
    selection and the cursor ends up behind it. *)
Definition replaceSelection (text : string) : M unit :=
  update (fun w =>
    set_editor {| ed_before := ed_before (editor w) +:+ text;
                  ed_selection := EmptyString;
                  ed_after := ed_after (editor w) |} w) >>
  emit (ReplaceSelection text).

(** [el.addClass(c)] and [el.removeClass(c)] on a class list. *)
Definition addClass (c : string) (cs : list string) : list string :=
  if bool_decide (c ∈ cs) then cs else cs ++ [c].

Definition removeClass (c : string) (cs : list string) : list string :=
  filter (fun x => x ≠ c) cs.

End Primitives.

(** ** The plugin: [class RedactorPlugin] *)

Definition offline_notice : string :=
  "Redactor: server offline — start run_phi.py first".

Section Plugin.

Variable host : Host.

(** *** Guards *)

Definition assertOnline : M bool :=
  let* online := get serverOnline in
  if negb online then
    new_Notice offline_notice >>
    ret false
  else ret true.

(** *** Server status UI *)

Definition refreshStatusUI : M unit :=
  let* online := get serverOnline in
  if online then
    update (fun w =>
      set_statusUI "🔒 Redactor: online"
        (addClass "redactor-status-bar--online"
           (removeClass "redactor-status-bar--offline" (statusBarClasses w)))
        "var(--color-green)" w)
  else
    update (fun w =>
      set_statusUI "🔒 Redactor: offline"
        (addClass "redactor-status-bar--offline"
           (removeClass "redactor-status-bar--online" (statusBarClasses w)))
        "var(--color-red)" w).

Definition updateServerStatus : M unit :=
  let* url := get (fun w => serverUrl (settings w) +:+ "/status") in
  let* r := attempt (requestUrl_status host url) in
  match r with
  | inr _ => update (set_serverOnline true)
  | inl _ => update (set_serverOnline false)
  end >>
  refreshStatusUI.

(** *** Vault helpers *)

(** The body of the [for (const part of parts)] loop of [ensureFolder],
    [current] being the path built so far. *)
Fixpoint ensureFolder_parts (current : string) (parts : list string)
    : M unit :=
  match parts with
  | [] => ret tt
  | part :: rest =>
      let current :=
        if JsString.nonempty current then current +:+ "/" +:+ part
        else part in
      let* exists_ := adapter_exists host current in
      (if negb exists_ then
         let* _ := attempt (vault_createFolder host current) in
         (* race condition: another call may have created it already *)
         ret tt
       else ret tt) >>
      ensureFolder_parts current rest
  end.

Definition ensureFolder (folderPath : string) : M unit :=
  if negb (JsString.nonempty folderPath) then ret tt
  else
    let parts :=
      List.filter JsString.nonempty
        (JsString.split JsString.slash folderPath) in
    ensureFolder_parts EmptyString parts.

Definition folderPath_of (p : string) : string :=
  if JsString.includes JsString.slash p then
    JsString.substring0
      (default 0%nat (JsString.lastIndexOf JsString.slash p)) p
  else EmptyString.

Definition saveVaultFile (p content : string) : M TFile :=
  let folderPath := folderPath_of p in
  (if JsString.nonempty folderPath then ensureFolder folderPath
   else ret tt) >>
  let* existing := getAbstractFileByPath p in
  match existing with
  | Some (IsTFile f) =>
      vault_modify host f content >>
      ret f
  | _ => vault_create host p content
  end.

(** *** Utilities *)

(** [LABEL_DISPLAY[label] ?? label.toLowerCase()], for labels that are not
    names of members of [Object.prototype] (on those the lookup of the
    source finds the inherited member). *)
Definition display_label (label : string) : string :=
  match List.find (fun kv => bool_decide (kv.1 = label)) LABEL_DISPLAY with
  | Some kv => kv.2
  | None => toLowerCase host label
  end.

(** [Object.values(counts).reduce((a, b) => a + b, 0)], for integer counts
    within the range in which JavaScript numbers are exact. *)
Definition total_of (counts : list (string * Z)) : Z :=
  foldl (fun a kv => (a + kv.2)%Z) 0%Z counts.

Definition buildCountSummary (counts : list (string * Z)) : string :=
  let total := total_of counts in
  if (total =? 0)%Z then "Redacted: no entities found"
  else
    let parts :=
      flat_map (fun kv =>
        if (0 <? kv.2)%Z
        then [pretty kv.2 +:+ " " +:+ display_label kv.1]
        else []) counts in
    "Redacted: " +:+ String.concat ", " parts.

End Plugin.

(** ** Core command implementations *)

Definition mapPath_of (s : RedactorSettings) (f : TFile) : string :=
  mapsFolder s +:+ "/" +:+ name f +:+ ".map.json".

Definition redactedPath_of (s : RedactorSettings) (f : TFile) : string :=
  redactFolder s +:+ "/" +:+ name f.

Definition restoredPath_of (s : RedactorSettings) (f : TFile) : string :=
  restoreFolder s +:+ "/" +:+ name f.

(** The double-quote character inside a message. *)
Definition dquote : string := String (ascii_of_nat 34) EmptyString.

(** The [Notice] closing [redactSelectedText]. *)
Definition selection_report (counts : list (string * Z)) : string :=
  let total := total_of counts in
  if (total =? 0)%Z then "No entities found in selection"
  else "Redacted " +:+ pretty total +:+ " entities in selection".

Section Commands.

Variable host : Host.

Definition redactFile (f : TFile) : M unit :=
  let* online := assertOnline in
  if negb online then ret tt else
  let* r := attempt (vault_read host f) in
  match r with
  | inl _ =>
      console_error "Redactor: failed to read file" >>
      new_Notice ("Redactor: could not read " +:+ name f)
  | inr text =>
      let* s := get settings in
      let* r := attempt (
        let body := {| rq_text := text; rq_deep_scan := deepScan s |} in
        requestUrl_redact host (serverUrl s +:+ "/redact") body) in
      match r with
      | inl _ =>
          console_error "Redactor: /redact request failed" >>
          new_Notice offline_notice >>
          update (set_serverOnline false) >>
          refreshStatusUI
      | inr response =>
          let* r := attempt (
            let redactedPath := redactedPath_of s f in
            let* redactedFile :=
              saveVaultFile host redactedPath (redacted_text response) in
            let mapData :=
              {| file := name f;
                 created := now_ISO host;
                 tokens := map response |} in
            let mapPath := mapPath_of s f in
            saveVaultFile host mapPath (JSON_stringify host mapData) >>
            let summary :=
              buildCountSummary host (entity_counts response) in
            new_Notice summary >>
            openFile host redactedFile) in
          match r with
          | inl _ =>
              console_error "Redactor: failed to save redacted file" >>
              new_Notice "Redactor: could not save output files."
          | inr _ => ret tt
          end
      end
  end.

Definition redactCurrentNote : M unit :=
  let* active := get activeFile in
  match active with
  | None => new_Notice "No active file."
  | Some f => redactFile f
  end.

Definition restoreCurrentNote : M unit :=
  let* online := assertOnline in
  if negb online then ret tt else
  let* active := get activeFile in
  match active with
  | None => new_Notice "No active file."
  | Some f =>
      let* s := get settings in
      let mapPath := mapPath_of s f in
      let* mapAbstract := getAbstractFileByPath mapPath in
      match mapAbstract with
      | Some (IsTFile mapTFile) =>
          let* r := attempt (
            let* mapRaw := vault_read host mapTFile in
            JSON_parse_raw host mapRaw) in
          match r with
          | inl _ =>
              console_error "Redactor: failed to read map file" >>
              new_Notice "Redactor: map file is missing or corrupted."
          | inr mapData =>
              let* r := attempt (vault_read host f) in
              match r with
              | inl _ =>
                  console_error "Redactor: failed to read file" >>
                  new_Notice ("Redactor: could not read " +:+ name f)
              | inr text =>
                  let* r := attempt (
                    let* toks := get_tokens mapData in
                    let body := {| rs_text := text; rs_map := toks |} in
                    requestUrl_restore host (serverUrl s +:+ "/restore")
                      body) in
                  match r with
                  | inl _ =>
                      console_error "Redactor: /restore request failed" >>
                      new_Notice offline_notice >>
                      update (set_serverOnline false) >>
                      refreshStatusUI
                  | inr response =>
                      let* r := attempt (
                        let restoredPath := restoredPath_of s f in
                        let* restoredFile :=
                          saveVaultFile host restoredPath
                            (restored_text response) in
                        new_Notice
                          ("Restored " +:+ dquote +:+ name f +:+ dquote +:+
                             " successfully") >>
                        openFile host restoredFile) in
                      match r with
                      | inl _ =>
                          console_error
                            "Redactor: failed to save restored file" >>
                          new_Notice
                            "Redactor: could not save restored file."
                      | inr _ => ret tt
                      end
                  end
              end
          end
      | _ =>
          new_Notice
            ("No map found for " +:+ dquote +:+ name f +:+ dquote +:+
               " — redact it first")
      end
  end.

End Commands.

Section Inline.

Variable host : Host.

(** [(JSON.parse(raw) as MapFile).tokens ?? {}] *)
Definition parse_existing_tokens (raw : string) : M Tokens :=
  let* doc := JSON_parse_raw host raw in
  let* t := get_tokens doc in
  ret (default ∅ t).

(** Lines 381-390: the tokens already on file for this note. *)
Definition load_existingTokens (mapPath : string) : M Tokens :=
  let* existing := getAbstractFileByPath mapPath in
  match existing with
  | Some (IsTFile f) =>
      let* r := attempt (
        let* raw := vault_read host f in
        parse_existing_tokens raw) in
      match r with
      | inr t => ret t
      | inl _ => (* corrupt map: start fresh *) ret ∅
      end
  | _ => ret ∅
  end.

Definition redactSelectedText (ctx_file : option TFile) : M unit :=
  let* online := assertOnline in
  if negb online then ret tt else
  let* selection := getSelection in
  if negb (JsString.nonempty selection) then new_Notice "No text selected."
  else
  match ctx_file with
  | None => new_Notice "No active file."
  | Some f =>
      let* s := get settings in
      let* r := attempt (
        let body := {| rq_text := selection; rq_deep_scan := deepScan s |} in
        requestUrl_redact host (serverUrl s +:+ "/redact") body) in
      match r with
      | inl _ =>
          console_error "Redactor: /redact request failed" >>
          new_Notice offline_notice >>
          update (set_serverOnline false) >>
          refreshStatusUI
      | inr response =>
          replaceSelection (redacted_text response) >>
          (* Merge into existing map for this note, or create a new one *)
          let* r := attempt (
            let mapPath := mapPath_of s f in
            let* existingTokens := load_existingTokens mapPath in
            let mapData :=
              {| file := name f;
                 created := now_ISO host;
                 tokens := spread existingTokens (map response) |} in
            saveVaultFile host mapPath (JSON_stringify host mapData)) in
          match r with
          | inl _ =>
              console_error "Redactor: failed to save map" >>
              new_Notice "Redactor: selection redacted but map save failed."
          | inr _ =>
              new_Notice (selection_report (entity_counts response))
          end
      end
  end.

End Inline.

(** ** A concrete host and concrete worlds

    Used to run the commands on the scenarios of the specification. *)

Module Demo.

Definition nl : string := String (ascii_of_nat 10) EmptyString.

(** A JSON string literal; the demo values contain no character that
    needs escaping. *)
Definition quoted (s : string) : string := dquote +:+ s +:+ dquote.

(** [JSON.stringify(mapData, null, 2)] on the demo values, the tokens
    being listed in the order of the map rather than in the order they
    were inserted: the same JSON value. *)
Definition stringify (m : MapFile) : string :=
  let entry (kv : string * string) :=
    "    " +:+ quoted kv.1 +:+ ": " +:+ quoted kv.2 in
  let toks := map_to_list (tokens m) in
  "{" +:+ nl +:+
  "  " +:+ quoted "file" +:+ ": " +:+ quoted (file m) +:+ "," +:+ nl +:+
  "  " +:+ quoted "created" +:+ ": " +:+ quoted (created m) +:+ "," +:+ nl +:+
  "  " +:+ quoted "tokens" +:+ ": " +:+
  match toks with
  | [] => "{}"
  | _ => "{" +:+ nl +:+ String.concat ("," +:+ nl) (entry <$> toks) +:+ nl +:+
         "  }"
  end +:+ nl +:+
  "}".

Definition note : TFile := {| path := "notes/note.md"; name := "note.md" |}.

Definition person_map : Tokens := {[ "[PERSON_1]" := "John Smith" ]}.

Definition stored_map : MapFile :=
  {| file := "note.md"; created := "2026-01-01T00:00:00.000Z";
     tokens := person_map |}.

Definition empty_map : MapFile :=
  {| file := "note.md"; created := "2026-01-01T00:00:00.000Z";
     tokens := ∅ |}.

(** A truncated map file. *)
Definition corrupt_raw : string := "{ " +:+ quoted "file" +:+ ": ".

(** [JSON.parse] on the texts that occur in the demo vaults; everything
    else there is not JSON. *)
Definition parse (raw : string) : option JsonDoc :=
  if bool_decide (raw = stringify stored_map)
  then Some (JMapFile (Some person_map))
  else if bool_decide (raw = stringify empty_map)
  then Some (JMapFile (Some ∅))
  else if bool_decide (raw = "null") then Some JNull
  else if bool_decide (raw = "{}") then Some (JMapFile None)
  else None.

Definition phone_reply : RedactResponse :=
  {| redacted_text := "call [PHONE_1]";
     map := {[ "[PHONE_1]" := "07911 123456" ]};
     entity_counts := [("PHONE", 1%Z)] |}.

(** A second detection pass numbers its tokens from 1 again. *)
Definition jane_reply : RedactResponse :=
  {| redacted_text := "ask [PERSON_1]";
     map := {[ "[PERSON_1]" := "Jane Doe" ]};
     entity_counts := [("PERSON", 1%Z)] |}.

Definition contact_reply : RedactResponse :=
  {| redacted_text := "Contact [PERSON_1] at [EMAIL_1]";
     map := {[ "[PERSON_1]" := "John Smith";
               "[EMAIL_1]" := "john@acme.com" ]};
     entity_counts := [("PERSON", 1%Z); ("EMAIL", 1%Z)] |}.

Definition detect (url : string) (b : RedactRequest)
    : option RedactResponse :=
  if bool_decide (rq_text b = "call 07911 123456") then Some phone_reply
  else if bool_decide (rq_text b = "ask Jane Doe") then Some jane_reply
  else if bool_decide (rq_text b = "Contact John Smith at john@acme.com")
  then Some contact_reply
  else Some {| redacted_text := rq_text b; map := ∅; entity_counts := [] |}.

(** The service substitutes the tokens it knows; the demo texts hold
    none, so the text comes back as it was sent. *)
Definition undo (url : string) (b : RestoreRequest)
    : option RestoreResponse :=
  Some {| restored_text := rs_text b |}.

Definition up (url : string) : option StatusResponse :=
  Some {| status := "ok"; spacy := true; phi3 := false; model := None |}.

Definition never (p : string) : bool := false.
Definition always (p : string) : bool := true.

(** Everything works. *)
Definition host : Host :=
  {| service_redact := detect;
     service_restore := undo;
     service_status := up;
     read_throws := never;
     modify_throws := never;
     create_throws := never;
     createFolder_throws := never;
     exists_throws := never;
     openFile_throws := never;
     now_ISO := "2026-02-02T12:00:00.000Z";
     JSON_parse := parse;
     JSON_stringify := stringify;
     toLowerCase := id |}.

(** The service is down. *)
Definition host_down : Host :=
  {| service_redact := fun _ _ => None;
     service_restore := fun _ _ => None;
     service_status := fun _ => None;
     read_throws := never;
     modify_throws := never;
     create_throws := never;
     createFolder_throws := never;
     exists_throws := never;
     openFile_throws := never;
     now_ISO := "2026-02-02T12:00:00.000Z";
     JSON_parse := parse;
     JSON_stringify := stringify;
     toLowerCase := id |}.

(** The service works but the vault refuses every write. *)
Definition host_readonly : Host :=
  {| service_redact := detect;
     service_restore := undo;
     service_status := up;
     read_throws := never;
     modify_throws := always;
     create_throws := always;
     createFolder_throws := always;
     exists_throws := never;
     openFile_throws := never;
     now_ISO := "2026-02-02T12:00:00.000Z";
     JSON_parse := parse;
     JSON_stringify := stringify;
     toLowerCase := id |}.

Definition map_path : string := "redact/maps/note.md.map.json".

Definition world (online : bool) (v : gmap string Node) (sel : string)
    : World :=
  {| serverOnline := online;
     settings := DEFAULT_SETTINGS;
     vault := v;
     activeFile := Some note;
     editor := {| ed_before := "Please ";
                  ed_selection := sel;
                  ed_after := " today." |};
     statusBarText := "🔒 Redactor: online";
     statusBarClasses := ["redactor-status-bar"];
     ribbonColor := "var(--color-green)";
     log := [] |}.

Definition note_text : string := "Contact John Smith at john@acme.com".

(** The note alone. *)
Definition vault_fresh : gmap string Node :=
  {[ "notes/note.md" := File note_text ]}.

(** The note and the map of an earlier redaction. *)
Definition vault_mapped : gmap string Node :=
  {[ "notes/note.md" := File note_text;
     "redact" := Folder;
     "redact/maps" := Folder;
     map_path := File (stringify stored_map) ]}.




(** The note and a map file that does not parse. *)
Definition vault_corrupt : gmap string Node :=
  {[ "notes/note.md" := File note_text;
     "redact" := Folder;
     "redact/maps" := Folder;
     map_path := File corrupt_raw ]}.

(** The note and a well-formed map file without entries. *)
Definition vault_empty_map : gmap string Node :=
  {[ "notes/note.md" := File note_text;
     "redact" := Folder;
     "redact/maps" := Folder;
     map_path := File (stringify empty_map) ]}.

End Demo.

(** ** Vocabulary of the properties *)

(** What a run added to the log. *)
Definition new_effects (w w' : World) : list Effect :=
  drop (length (log w)) (log w').

(** Effects that reach the user or the operator: notices and console
    output. *)
Definition is_message (e : Effect) : bool :=
  match e with
  | Notice _ | ConsoleError _ => true
  | _ => false
  end.

Definition messages (l : list Effect) : list Effect := List.filter is_message l.

Definition is_request (e : Effect) : bool :=
  match e with
  | Request _ _ _ => true
  | _ => false
  end.

(** Effects that put a file's content into the vault. *)
Definition is_file_write (e : Effect) : bool :=
  match e with
  | VaultModify _ _ | VaultCreate _ _ => true
  | _ => false
  end.

Definition is_folder_creation (e : Effect) : bool :=
  match e with
  | VaultCreateFolder _ => true
  | _ => false
  end.

(** [w'] is [w] with some folders added: same files, same plugin state,
    and a log extended by folder creations only. *)
Definition folders_added (w w' : World) : Prop :=
  ∃ (v' : gmap string Node) (l : list Effect),
    w' = set_log (log w ++ l) (set_vault v' w) ∧
    Forall (fun e => is_folder_creation e = true) l ∧
    ∀ q c, v' !! q = Some (File c) ↔ vault w !! q = Some (File c).

(** The tokens [redactSelectedText] finds on file: those of a map file that
    can be read and parsed and has a [tokens] property, none otherwise. *)
Definition stored_tokens (host : Host) (v : gmap string Node) (p : string)
    : Tokens :=
  match v !! p with
  | Some (File raw) =>
      if read_throws host p then ∅
      else match JSON_parse host raw with
           | Some (JMapFile (Some t)) => t
           | _ => ∅
           end
  | _ => ∅
  end.

(** A map file is corrupted when it is there but cannot be read or is not
    JSON. *)
Definition map_corrupted (host : Host) (v : gmap string Node) (p : string)
    : Prop :=
  ∃ raw, v !! p = Some (File raw) ∧
         (read_throws host p = true ∨ JSON_parse host raw = None).

(** Two maps disagree on a token. *)
Definition conflicting (M F : Tokens) : Prop :=
  ∃ k v v', M !! k = Some v ∧ F !! k = Some v' ∧ v ≠ v'.

(** The run told the user or the operator something besides its closing
    report. *)
Definition warned (new : list Effect) (report : string) : Prop :=
  ∃ e, e ∈ messages new ∧ e ≠ Notice report.

(** The [/redact] request of a command on text [t]. *)
Definition redact_request (s : RedactorSettings) (t : string) : Effect :=
  Request (serverUrl s +:+ "/redact") "POST"
    (RedactBody {| rq_text := t; rq_deep_scan := deepScan s |}).

(** The world of [redactSelectedText] once the service has answered
    [response] and the selection has been replaced (line 376). *)
Definition selection_replaced (w : World) (response : RedactResponse)
    : World :=
  set_log
    (log w ++ [redact_request (settings w) (ed_selection (editor w));
               ReplaceSelection (redacted_text response)])
    (set_editor
       {| ed_before := ed_before (editor w) +:+ redacted_text response;
          ed_selection := EmptyString;
          ed_after := ed_after (editor w) |} w).

(** The map [redactSelectedText] hands to [saveVaultFile] (lines 391-395). *)
Definition merged_map (host : Host) (w : World) (f : TFile)
    (response : RedactResponse) : MapFile :=
  {| file := name f;
     created := now_ISO host;
     tokens := spread
                 (stored_tokens host (vault w) (mapPath_of (settings w) f))
                 (map response) |}.

(** The map [redactFile] hands to [saveVaultFile] (lines 252-256). *)
Definition fresh_map (host : Host) (f : TFile) (response : RedactResponse)
    : MapFile :=
  {| file := name f; created := now_ISO host; tokens := map response |}.

(** The state after a run of health polls, one host behaviour per tick. *)
Definition poll_ticks (ticks : list Host) (w : World) : World :=
  foldl (fun w h => exec (updateServerStatus h) w) w ticks.

(** The probe of a poll tick succeeded. *)
Definition probe_ok (h : Host) (w : World) : bool :=
  bool_decide (is_Some (service_status h (serverUrl (settings w) +:+ "/status"))).

(** ** The rest of [main.ts]: status command and settings *)

(** [s.startsWith(pre)] *)
Fixpoint startsWith (s pre : string) : bool :=
  match pre, s with
  | EmptyString, _ => true
  | String a pre', String b s' =>
      if decide (a = b) then startsWith s' pre' else false
  | String _ _, EmptyString => false
  end.

Definition isLocalUrl (url : string) : bool :=
  startsWith url "http://localhost" ||
  startsWith url "http://127.0.0.1".

Definition newline : string := String (ascii_of_nat 10) EmptyString.

(** The notice of [checkServerStatus] when the service answers. *)
Definition status_online_report (data : StatusResponse) : string :=
  String.concat newline
    [ "Redactor server: online";
      "spaCy:  " +:+ (if spacy data then "✓ ready" else "✗ not loaded");
      "Phi-3:  " +:+
        (if phi3 data
         then "✓ ready (" +:+ default EmptyString (model data) +:+ ")"
         else "✗ not loaded") ].

Definition status_offline_report : string :=
  "Redactor server: offline" +:+ newline +:+ newline +:+
  "Start run_phi.py to enable all features.".

Section StatusCommand.

Variable host : Host.

(** The display time given to [new Notice] (8000 and 6000 here) is not
    part of the log. *)
Definition checkServerStatus : M unit :=
  let* url := get (fun w => serverUrl (settings w) +:+ "/status") in
  let* r := attempt (requestUrl_status host url) in
  match r with
  | inr data => new_Notice (status_online_report data)
  | inl _ => new_Notice status_offline_report
  end.

End StatusCommand.

(** The two awaited calls of the "Test Connection" button of the settings
    tab; the button's own label and the redraw are left out.  Each call
    sends its own request, so each meets its own behaviour of the outside
    world: [first] during [checkServerStatus], [second] during
    [updateServerStatus]. *)
Definition testConnection (first second : Host) : M unit :=
  checkServerStatus first >>
  updateServerStatus second.

(** What [loadData] returns: a [Partial<RedactorSettings>], a field being
    [None] when the stored object lacks it. *)
Record PartialSettings := {
  p_serverUrl : option string;
  p_redactFolder : option string;
  p_restoreFolder : option string;
  p_mapsFolder : option string;
  p_deepScan : option bool
}.

(** [Object.assign({}, DEFAULT_SETTINGS, data)]; a [null] source is
    skipped. *)
Definition assign_settings (data : option PartialSettings)
    : RedactorSettings :=
  match data with
  | None => DEFAULT_SETTINGS
  | Some d =>
      {| serverUrl := default (serverUrl DEFAULT_SETTINGS) (p_serverUrl d);
         redactFolder :=
           default (redactFolder DEFAULT_SETTINGS) (p_redactFolder d);
         restoreFolder :=
           default (restoreFolder DEFAULT_SETTINGS) (p_restoreFolder d);
         mapsFolder := default (mapsFolder DEFAULT_SETTINGS) (p_mapsFolder d);
         deepScan := default (deepScan DEFAULT_SETTINGS) (p_deepScan d) |}
  end.

(** The object [saveData(this.settings)] stores. *)
Definition stored_settings (s : RedactorSettings) : PartialSettings :=
  {| p_serverUrl := Some (serverUrl s);
     p_redactFolder := Some (redactFolder s);
     p_restoreFolder := Some (restoreFolder s);
     p_mapsFolder := Some (mapsFolder s);
     p_deepScan := Some (deepScan s) |}.

Definition set_settings (s : RedactorSettings) (w : World) : World :=
  {| serverOnline := serverOnline w; settings := s; vault := vault w;
     activeFile := activeFile w; editor := editor w;
     statusBarText := statusBarText w;
     statusBarClasses := statusBarClasses w;
     ribbonColor := ribbonColor w; log := log w |}.

(** The plugin together with its data file ([data.json]); [None] when
    nothing was ever saved. *)
Record Installed := {
  plugin : World;
  data_json : option PartialSettings
}.

Definition non_local_warning : string :=
  "⚠️ Warning: The server URL is not localhost. " +:+
  "Your note content will be sent to that address. " +:+
  "Make sure you trust and control that server.".

Section SettingsPersistence.

(** [String.prototype.trim] and whether [saveData] rejects. *)
Variable trim : string -> string.
Variable saveData_throws : bool.

Definition loadSettings (i : Installed) : Installed :=
  {| plugin := set_settings (assign_settings (data_json i)) (plugin i);
     data_json := data_json i |}.

Definition saveSettings (i : Installed) : Res unit * Installed :=
  if saveData_throws then (Throw (IOError "data.json"), i)
  else (Ok tt,
        {| plugin := plugin i;
           data_json := Some (stored_settings (settings (plugin i))) |}).

(** The [onChange] handler of the "Server URL" field. *)
Definition onChange_serverUrl (value : string) (i : Installed)
    : Res unit * Installed :=
  let trimmed := trim value in
  let w := plugin i in
  let w :=
    if negb (isLocalUrl trimmed)
    then set_log (log w ++ [Notice non_local_warning]) w
    else w in
  let s := settings w in
  let w :=
    set_settings
      {| serverUrl := trimmed;
         redactFolder := redactFolder s;
         restoreFolder := restoreFolder s;
         mapsFolder := mapsFolder s;
         deepScan := deepScan s |} w in
  saveSettings {| plugin := w; data_json := data_json i |}.

End SettingsPersistence.

(** ** [version-bump.mjs] *)

Module VersionBump.

Inductive Exit :=
| Exit0
| Exit1
| Uncaught.

Section Script.

(** JSON values, with the strings among them and the way a template
    literal prints them. *)
Variable V : Type.
Variable str : string -> V.
Variable show : V -> string.

(** The two files as the JSON objects they hold; [None] for a file that
    is missing or does not parse, on which [readFileSync] or [JSON.parse]
    throws. *)
Record Files := {
  manifest_json : option (gmap string V);
  versions_json : option (gmap string V)
}.

Record Run := {
  files : Files;
  exit : Exit;
  console : list string
}.

(** [versions[targetVersion] = minAppVersion], as the file shows it
    afterwards.  A property set to [undefined] is not written by
    [JSON.stringify].  The key [__proto__] is special: unless the object
    has an own entry of that name (which [JSON.parse] makes when the file
    has one), the assignment reaches the setter inherited from
    [Object.prototype] and adds no entry. *)
Definition set_version_entry (target : string) (minAppVersion : option V)
    (versions : gmap string V) : gmap string V :=
  if bool_decide (target = "__proto__" ∧ versions !! target = None)
  then versions
  else
    match minAppVersion with
    | Some m => <[target := m]> versions
    | None => delete target versions
    end.

Definition bump (npm_package_version : option string) (fs : Files) : Run :=
  match npm_package_version with
  | None | Some EmptyString =>
      {| files := fs; exit := Exit1;
         console := ["npm_package_version is not set."] |}
  | Some targetVersion =>
      match manifest_json fs with
      | None => {| files := fs; exit := Uncaught; console := [] |}
      | Some manifest =>
          let minAppVersion := manifest !! "minAppVersion" in
          let manifest := <["version" := str targetVersion]> manifest in
          let fs :=
            {| manifest_json := Some manifest;
               versions_json := versions_json fs |} in
          match versions_json fs with
          | None => {| files := fs; exit := Uncaught; console := [] |}
          | Some versions =>
              let versions :=
                set_version_entry targetVersion minAppVersion versions in
              {| files :=
                   {| manifest_json := manifest_json fs;
                      versions_json := Some versions |};
                 exit := Exit0;
                 console :=
                   ["Bumped to " +:+ targetVersion +:+ " (minAppVersion: "
                    +:+ from_option show "undefined" minAppVersion +:+ ")"]
              |}
          end
      end
  end.

End Script.

End VersionBump.

(** A category that counts. *)
Definition nonzero_count (kv : string * Z) : bool := negb (kv.2 =? 0)%Z.

(** ** Vocabulary of the frame properties *)

(** The paths [ensureFolder] visits: the value of [current] at each turn
    of its loop. *)
Fixpoint folder_chain (current : string) (parts : list string)
    : list string :=
  match parts with
  | [] => []
  | part :: rest =>
      let current :=
        if JsString.nonempty current then current +:+ "/" +:+ part
        else part in
      current :: folder_chain current rest
  end.

(** Characters plus separators: one more than the length for the parts of
    a split. *)
Fixpoint weight (parts : list string) : nat :=
  match parts with
  | [] => 0%nat
  | part :: rest => S (String.length part + weight rest)
  end.

Definition folders_of (folderPath : string) : list string :=
  folder_chain EmptyString
    (List.filter JsString.nonempty
       (JsString.split JsString.slash folderPath)).

(** An effect a command may have when the server is configured at
    [serverUrl s] and the command may write the files [ps]: requests go to
    the three endpoints of that server, file writes to [ps]. *)
Definition allowed (s : RedactorSettings) (ps : list string) (e : Effect)
    : Prop :=
  match e with
  | Request url _ _ =>
      url = serverUrl s +:+ "/redact" ∨
      url = serverUrl s +:+ "/restore" ∨
      url = serverUrl s +:+ "/status"
  | VaultModify p _ | VaultCreate p _ => p ∈ ps
  | _ => True
  end.

(** What a command leaves alone: settings and active note stay, the health
    flag is never raised, the editor stays unless [ed], the log grows by
    allowed effects, and no file outside [ps] changes, appears or
    disappears. *)
Definition frame (ps : list string) (ed : bool) (w w' : World) : Prop :=
  settings w' = settings w ∧
  activeFile w' = activeFile w ∧
  (serverOnline w' = true → serverOnline w = true) ∧
  (ed = false → editor w' = editor w) ∧
  (∃ l, log w' = log w ++ l ∧ Forall (allowed (settings w) ps) l) ∧
  (∀ q, q ∉ ps →
        ∀ c, vault w' !! q = Some (File c) ↔ vault w !! q = Some (File c)).

(** [m] keeps the frame from every world configured by [s]. *)
Definition framed (s : RedactorSettings) (ps : list string) (ed : bool)
    {A} (m : M A) : Prop :=
  ∀ w, settings w = s → frame ps ed w (exec m w).


(** * Properties *)

(** ** The monad and the world *)

Lemma set_log_set_vault_twice l1 v1 l2 v2 w :
  set_log l2 (set_vault v2 (set_log l1 (set_vault v1 w))) =
  set_log l2 (set_vault v2 w).
Proof. by destruct w. Qed.

Lemma set_log_vault_id w : set_log (log w) (set_vault (vault w) w) = w.
Proof. by destruct w. Qed.

Lemma new_effects_app w w' l :
  log w' = log w ++ l → new_effects w w' = l.
Proof. intros E. unfold new_effects. rewrite E. apply drop_app_length. Qed.

Lemma folders_added_refl w : folders_added w w.
Proof.
  exists (vault w), []. rewrite app_nil_r, set_log_vault_id.
  split_and!; [done | constructor | done].
Qed.

Lemma folders_added_trans w1 w2 w3 :
  folders_added w1 w2 → folders_added w2 w3 → folders_added w1 w3.
Proof.
  intros (v2 & l2 & -> & F2 & V2) (v3 & l3 & -> & F3 & V3).
  exists v3, (l2 ++ l3). cbn in *.
  rewrite set_log_set_vault_twice, app_assoc.
  split_and!; [done | by apply Forall_app | ].
  intros q c. by rewrite V3, V2.
Qed.

(** ** Vault helpers *)

Section VaultHelpers.

Variable host : Host.

Lemma insert_folder_keeps_files (v : gmap string Node) p :
  v !! p = None →
  ∀ q c, <[p := Folder]> v !! q = Some (File c) ↔ v !! q = Some (File c).
Proof.
  intros Hp q c. destruct (decide (p = q)) as [<- | Hne].
  - rewrite lookup_insert_eq, Hp. split; discriminate.
  - by rewrite lookup_insert_ne.
Qed.

(** A swallowed [createFolder] adds at most one folder. *)
Lemma try_createFolder_folders p w :
  ∃ r, attempt (vault_createFolder host p) w = (Ok r, exec (attempt (vault_createFolder host p)) w) ∧
       folders_added w (exec (attempt (vault_createFolder host p)) w).
Proof.
  unfold exec, attempt, vault_createFolder, bind, get, throw, update, emit, ret.
  cbn. destruct (createFolder_throws host p); cbn.
  { eexists; split; [done | apply folders_added_refl]. }
  destruct (vault w !! p) as [n|] eqn:Hp; cbn.
  { eexists; split; [done | apply folders_added_refl]. }
  eexists; split; [done |].
  exists (<[p := Folder]> (vault w)), [VaultCreateFolder p].
  split_and!; [by destruct w | by repeat constructor | ].
  by apply insert_folder_keeps_files.
Qed.

(** Whatever happens in [ensureFolder], only folders are added. *)
Lemma ensureFolder_parts_folders parts : ∀ current w,
  folders_added w (exec (ensureFolder_parts host current parts) w).
Proof.
  induction parts as [| part rest IH]; intros current w.
  { apply folders_added_refl. }
  cbn [ensureFolder_parts].
  set (cur := if JsString.nonempty current then _ else _).
  unfold exec, bind at 1. unfold adapter_exists at 1.
  unfold bind at 1, get at 1. cbn beta iota.
  destruct (exists_throws host cur); cbn.
  { apply folders_added_refl. }
  destruct (bool_decide (is_Some (vault w !! cur))); cbn.
  { apply IH. }
  destruct (try_createFolder_folders cur w) as (r & E & F).
  unfold bind. rewrite E. cbn.
  eapply folders_added_trans; [exact F | apply IH].
Qed.

Lemma ensureFolder_folders folderPath w :
  folders_added w (exec (ensureFolder host folderPath) w).
Proof.
  unfold ensureFolder. destruct (negb _).
  - apply folders_added_refl.
  - apply ensureFolder_parts_folders.
Qed.

End VaultHelpers.

Section SaveVaultFile.

Variable host : Host.

(** The world after a successful [saveVaultFile p c] started in [w] and
    having reached [wa] when the file is written. *)
Lemma saveVaultFile_cases p c w :
  ∃ wa, folders_added w wa ∧
    ((∃ e, saveVaultFile host p c w = (Throw e, wa)) ∨
     (∃ f ev,
        saveVaultFile host p c w =
          (Ok f, set_log (log wa ++ [ev])
                   (set_vault (<[p := File c]> (vault wa)) wa)) ∧
        path f = p ∧
        (ev = VaultModify p c ∨ ev = VaultCreate p c))).
Proof.
  unfold saveVaultFile.
  set (m := if JsString.nonempty (folderPath_of p) then _ else _).
  assert (Hm : folders_added w (exec m w)).
  { subst m. destruct (JsString.nonempty _).
    - apply ensureFolder_folders.
    - apply folders_added_refl. }
  unfold bind. unfold exec in Hm.
  destruct (m w) as [[[]|e] wa]; cbn in Hm; exists wa; (split; [done |]).
  2: { left. by eexists. }
  unfold getAbstractFileByPath, bind, get, ret. cbn.
  destruct (vault wa !! p) as [[raw|]|] eqn:Hp; cbn.
  - unfold vault_modify, bind, get, throw, update, emit, ret. cbn.
    destruct (modify_throws host p); cbn; [left; by eexists |].
    rewrite Hp. cbn. right. eexists _, _.
    split_and!; [reflexivity | reflexivity | by left].
  - unfold vault_create, bind, get, throw. cbn.
    destruct (create_throws host p); cbn; [left; by eexists |].
    rewrite Hp. left; by eexists.
  - unfold vault_create, bind, get, throw, update, emit, ret. cbn.
    destruct (create_throws host p); cbn; [left; by eexists |].
    rewrite Hp. cbn. right. eexists _, _.
    split_and!; [reflexivity | reflexivity | by right].
Qed.

(** With an [exists] that answers, [ensureFolder] runs to its end. *)
Lemma ensureFolder_parts_ok parts :
  (∀ q, exists_throws host q = false) →
  ∀ current w, outcome (ensureFolder_parts host current parts) w = Ok tt.
Proof.
  intros Hex. induction parts as [| part rest IH]; intros current w; [done |].
  cbn [ensureFolder_parts].
  set (cur := if JsString.nonempty current then _ else _).
  unfold outcome, bind at 1. unfold adapter_exists at 1.
  unfold bind at 1, get at 1. cbn beta iota. rewrite Hex. cbn.
  destruct (bool_decide (is_Some (vault w !! cur))); cbn.
  { apply IH. }
  destruct (try_createFolder_folders host cur w) as (r & E & _).
  unfold bind. rewrite E. cbn. apply IH.
Qed.

(** Saving over a file that is already there succeeds as soon as [exists]
    answers and [modify] goes through. *)
Lemma saveVaultFile_overwrites p c w old :
  (∀ q, exists_throws host q = false) →
  modify_throws host p = false →
  vault w !! p = Some (File old) →
  ∃ wa f,
    folders_added w wa ∧
    saveVaultFile host p c w =
      (Ok f, set_log (log wa ++ [VaultModify p c])
               (set_vault (<[p := File c]> (vault wa)) wa)).
Proof.
  intros Hex Hmod Hold. unfold saveVaultFile.
  set (m := if JsString.nonempty (folderPath_of p) then _ else _).
  assert (Hm : folders_added w (exec m w) ∧ outcome m w = Ok tt).
  { subst m. destruct (JsString.nonempty _).
    - split; [apply ensureFolder_folders |].
      unfold ensureFolder. destruct (negb _); [done |].
      by apply ensureFolder_parts_ok.
    - split; [apply folders_added_refl | done]. }
  unfold bind. unfold exec, outcome in Hm.
  destruct (m w) as [res wa]. cbn in Hm. destruct Hm as [Hf ->].
  exists wa. destruct Hf as (v' & l & -> & Hl & Hv).
  assert (Hp : v' !! p = Some (File old)) by by apply Hv.
  unfold getAbstractFileByPath, vault_modify, bind, get, throw, update, emit,
    ret. cbn. rewrite Hp. cbn. rewrite Hmod, Hp. cbn.
  eexists. split; [| reflexivity].
  by exists v', l.
Qed.

End SaveVaultFile.

(** ** Service health monitor *)

Lemma updateServerStatus_run h w :
  ∃ text classes color,
    updateServerStatus h w =
      (Ok tt,
       set_statusUI text classes color
         (set_serverOnline (probe_ok h w)
            (set_log
               (log w ++
                [Request (serverUrl (settings w) +:+ "/status") "GET" NoBody])
               w))).
Proof.
  unfold updateServerStatus, probe_ok, requestUrl_status, refreshStatusUI,
    attempt, bind, get, update, emit, throw, ret. cbn.
  destruct (service_status h _) as [r|]; cbn; by eexists _, _, _.
Qed.

Lemma updateServerStatus_settings h w :
  settings (exec (updateServerStatus h) w) = settings w.
Proof.
  destruct (updateServerStatus_run h w) as (t & c & col & E).
  unfold exec. by rewrite E.
Qed.

Lemma poll_ticks_settings ticks : ∀ w,
  settings (poll_ticks ticks w) = settings w.
Proof.
  induction ticks as [| h ticks IH]; intros w; [done |].
  cbn. unfold poll_ticks in IH. by rewrite IH, updateServerStatus_settings.
Qed.

(** C8. The health state is a two-state machine.  It is OFFLINE when the
    plugin is constructed, before any check has completed; a poll never
    raises and leaves the state ONLINE exactly when its probe succeeded,
    whatever the state was before; hence after any run of polls the state
    is the outcome of the last probe alone. *)
Theorem health_two_state_machine :
  (∀ s v a e, serverOnline (initial_plugin s v a e) = false) ∧
  (∀ h w,
     outcome (updateServerStatus h) w = Ok tt ∧
     serverOnline (exec (updateServerStatus h) w) = probe_ok h w) ∧
  (∀ ticks h w,
     serverOnline (poll_ticks (ticks ++ [h]) w) = probe_ok h w).
Proof.
  split_and!.
  - done.
  - intros h w. destruct (updateServerStatus_run h w) as (t & c & col & E).
    unfold outcome, exec. by rewrite E.
  - intros ticks h w. unfold poll_ticks. rewrite foldl_app. cbn.
    fold (poll_ticks ticks w).
    destruct (updateServerStatus_run h (poll_ticks ticks w))
      as (t & c & col & E).
    unfold exec. rewrite E. cbn.
    unfold probe_ok. by rewrite poll_ticks_settings.
Qed.

(** ** Offline fail-fast *)

(** C3. With the cached health state OFFLINE, whole-document redaction,
    restoration and inline redaction each end at once: the world is the one
    they started in with the offline notice added to the log, so that no
    request was issued, the vault and the editor are untouched and the
    notice is the only outcome. *)
Theorem offline_fail_fast host w f ctx :
  serverOnline w = false →
  let w' := set_log (log w ++ [Notice offline_notice]) w in
  redactFile host f w = (Ok tt, w') ∧
  restoreCurrentNote host w = (Ok tt, w') ∧
  redactSelectedText host ctx w = (Ok tt, w') ∧
  new_effects w w' = [Notice offline_notice] ∧
  vault w' = vault w ∧ editor w' = editor w.
Proof.
  intros Hoff w'.
  unfold redactFile, restoreCurrentNote, redactSelectedText, assertOnline,
    new_Notice, emit, bind, get, update, ret.
  cbn. rewrite Hoff. cbn.
  split_and!; try done.
  by apply new_effects_app.
Qed.

Lemma offline_fail_fast_witness :
  let w := Demo.world false Demo.vault_mapped "call 07911 123456" in
  let w' := set_log (log w ++ [Notice offline_notice]) w in
  redactFile Demo.host Demo.note w = (Ok tt, w') ∧
  restoreCurrentNote Demo.host w = (Ok tt, w') ∧
  redactSelectedText Demo.host (Some Demo.note) w = (Ok tt, w') ∧
  new_effects w w' = [Notice offline_notice] ∧
  vault w' = vault w ∧ editor w' = editor w.
Proof.
  apply (offline_fail_fast Demo.host
           (Demo.world false Demo.vault_mapped "call 07911 123456")
           Demo.note (Some Demo.note)).
  reflexivity.
Defined.

(** The command [redactCurrentNote] looks for the active note first and
    hands it to [redactFile]; without an active note it says so and stops,
    online or not. *)
Lemma redactCurrentNote_run host w :
  redactCurrentNote host w =
    match activeFile w with
    | Some f => redactFile host f w
    | None => (Ok tt, set_log (log w ++ [Notice "No active file."]) w)
    end.
Proof.
  unfold redactCurrentNote, bind, get. cbn. by destruct (activeFile w).
Qed.

(** ** Restoration *)

(** C4. Restoring a note for which the vault holds no map file (nothing at
    the map path, or a folder) ends with the notice that no map was found:
    nothing else happens, so no request is issued, no map is made up and no
    restored file is written. *)
Theorem restore_without_map host w f :
  serverOnline w = true →
  activeFile w = Some f →
  (∀ raw, vault w !! mapPath_of (settings w) f ≠ Some (File raw)) →
  let w' :=
    set_log
      (log w ++
       [Notice ("No map found for " +:+ dquote +:+ name f +:+ dquote +:+
                " — redact it first")]) w in
  restoreCurrentNote host w = (Ok tt, w') ∧
  List.filter is_request (new_effects w w') = [] ∧
  List.filter is_file_write (new_effects w w') = [] ∧
  vault w' = vault w.
Proof.
  intros Hon Hact Hmap w'.
  assert (Hnew : new_effects w w' = [Notice ("No map found for " +:+ dquote +:+ name f +:+ dquote +:+ " — redact it first")]) by by apply new_effects_app.
  rewrite Hnew. split_and!; try done.
  unfold restoreCurrentNote, assertOnline, getAbstractFileByPath, new_Notice,
    emit, bind, get, update, ret.
  cbn. rewrite Hon. cbn. rewrite Hact. cbn.
  destruct (vault w !! mapPath_of (settings w) f) as [[raw|]|] eqn:E; cbn;
    try done.
  by destruct (Hmap raw).
Qed.

Lemma restore_without_map_witness :
  let w := Demo.world true Demo.vault_fresh EmptyString in
  restoreCurrentNote Demo.host w =
    (Ok tt,
     set_log [Notice ("No map found for " +:+ dquote +:+ "note.md" +:+ dquote
                      +:+ " — redact it first")] w).
Proof.
  apply (restore_without_map Demo.host
           (Demo.world true Demo.vault_fresh EmptyString) Demo.note).
  - reflexivity.
  - reflexivity.
  - intros raw. vm_compute. discriminate.
Defined.

(** C7. Restoring a note whose map file is there but cannot be read or
    parsed ends with the notice that the map is missing or corrupted (and a
    console entry): no request is issued, so no text reaches the restore
    endpoint, and no file is written. *)
Theorem restore_with_corrupted_map host w f :
  serverOnline w = true →
  activeFile w = Some f →
  map_corrupted host (vault w) (mapPath_of (settings w) f) →
  let w' :=
    set_log
      (log w ++
       [ConsoleError "Redactor: failed to read map file";
        Notice "Redactor: map file is missing or corrupted."]) w in
  restoreCurrentNote host w = (Ok tt, w') ∧
  List.filter is_request (new_effects w w') = [] ∧
  List.filter is_file_write (new_effects w w') = [] ∧
  vault w' = vault w.
Proof.
  intros Hon Hact (raw & Hraw & Hbad) w'.
  assert (Hnew : new_effects w w' =
                 [ConsoleError "Redactor: failed to read map file";
                  Notice "Redactor: map file is missing or corrupted."])
    by by apply new_effects_app.
  rewrite Hnew. split_and!; try done.
  unfold restoreCurrentNote, assertOnline, getAbstractFileByPath, vault_read,
    JSON_parse_raw, attempt, console_error, new_Notice, emit, bind, get,
    update, throw, ret.
  cbn. rewrite Hon. cbn. rewrite Hact. cbn. rewrite Hraw. cbn.
  destruct (read_throws host _) eqn:Hread; cbn.
  { subst w'. unfold set_log. cbn. by rewrite <- app_assoc. }
  rewrite Hraw. cbn.
  destruct Hbad as [Hbad | Hbad]; [congruence |].
  rewrite Hbad. cbn. subst w'. unfold set_log. cbn. by rewrite <- app_assoc.
Qed.

Lemma restore_with_corrupted_map_witness :
  let w := Demo.world true Demo.vault_corrupt EmptyString in
  restoreCurrentNote Demo.host w =
    (Ok tt,
     set_log [ConsoleError "Redactor: failed to read map file";
              Notice "Redactor: map file is missing or corrupted."] w).
Proof.
  apply (restore_with_corrupted_map Demo.host
           (Demo.world true Demo.vault_corrupt EmptyString) Demo.note).
  - reflexivity.
  - reflexivity.
  - exists Demo.corrupt_raw. split; [reflexivity | right; reflexivity].
Defined.

(** A map file holding the JSON text [null] parses, so it is not corrupted
    in the sense above; reading its [tokens] then fails inside the [try] of
    the request, before the request is sent, and the run ends as if the
    service were down. *)
Remark restore_with_null_map :
  let w :=
    Demo.world true
      (<[Demo.map_path := File "null"]> Demo.vault_mapped) EmptyString in
  let w' := exec (restoreCurrentNote Demo.host) w in
  new_effects w w' =
    [ConsoleError "Redactor: /restore request failed";
     Notice offline_notice] ∧
  serverOnline w' = false.
Proof. by vm_compute. Qed.

(** ** Whole-document redaction *)

(** The first scenario of the specification. *)
Example document_scenario :
  let w := Demo.world true Demo.vault_fresh EmptyString in
  let w' := exec (redactFile Demo.host Demo.note) w in
  vault w' !! "redact/redacted/note.md" =
    Some (File "Contact [PERSON_1] at [EMAIL_1]") ∧
  vault w' !! Demo.map_path =
    Some (File (Demo.stringify
                  {| file := "note.md";
                     created := "2026-02-02T12:00:00.000Z";
                     tokens := {[ "[PERSON_1]" := "John Smith";
                                  "[EMAIL_1]" := "john@acme.com" ]} |})) ∧
  messages (new_effects w w') = [Notice "Redacted: 1 names, 1 emails"].
Proof. by vm_compute. Qed.

(** The world of [redactFile] once the note has been read and the request
    sent. *)
Lemma redactFile_online host w f text :
  serverOnline w = true →
  read_throws host (path f) = false →
  vault w !! path f = Some (File text) →
  redactFile host f w =
    (let s := settings w in
     let w1 := set_log (log w ++ [redact_request s text]) w in
     match service_redact host (serverUrl s +:+ "/redact")
             {| rq_text := text; rq_deep_scan := deepScan s |} with
     | None =>
         (console_error "Redactor: /redact request failed" >>
          new_Notice offline_notice >>
          update (set_serverOnline false) >>
          refreshStatusUI) w1
     | Some response =>
         (let* r := attempt (
            let* redactedFile :=
              saveVaultFile host (redactedPath_of s f)
                (redacted_text response) in
            saveVaultFile host (mapPath_of s f)
              (JSON_stringify host (fresh_map host f response)) >>
            new_Notice (buildCountSummary host (entity_counts response)) >>
            openFile host redactedFile) in
          match r with
          | inl _ =>
              console_error "Redactor: failed to save redacted file" >>
              new_Notice "Redactor: could not save output files."
          | inr _ => ret tt
          end) w1
     end).
Proof.
  intros Hon Hread Hfile.
  unfold redactFile at 1, assertOnline, vault_read, requestUrl_redact.
  unfold attempt at 1 2, bind at 1 2 3 4 5 6 7, get, emit, update, ret.
  cbn. rewrite Hon. cbn. rewrite Hread, Hfile. cbn.
  destruct (service_redact host _ _) as [response|]; reflexivity.
Qed.

(** C6. When the detect call of whole-document redaction fails, nothing is
    written: the run adds the request, a console entry and the offline
    notice to the log, records the service as OFFLINE and leaves the vault
    as it was. *)
Theorem redactFile_detect_failure host w f text :
  serverOnline w = true →
  read_throws host (path f) = false →
  vault w !! path f = Some (File text) →
  service_redact host (serverUrl (settings w) +:+ "/redact")
    {| rq_text := text; rq_deep_scan := deepScan (settings w) |} = None →
  let w' := exec (redactFile host f) w in
  outcome (redactFile host f) w = Ok tt ∧
  new_effects w w' =
    [redact_request (settings w) text;
     ConsoleError "Redactor: /redact request failed";
     Notice offline_notice] ∧
  vault w' = vault w ∧
  serverOnline w' = false.
Proof.
  intros Hon Hread Hfile Hnone w'. subst w'.
  unfold outcome, exec. rewrite (redactFile_online host w f text) by done.
  cbn zeta. rewrite Hnone.
  unfold refreshStatusUI, console_error, new_Notice, emit, bind, get, update,
    ret. cbn.
  split_and!; try done.
  apply new_effects_app. cbn. by rewrite <- !app_assoc.
Qed.

Lemma redactFile_detect_failure_witness :
  let w := Demo.world true Demo.vault_mapped EmptyString in
  let w' := exec (redactFile Demo.host_down Demo.note) w in
  outcome (redactFile Demo.host_down Demo.note) w = Ok tt ∧
  new_effects w w' =
    [redact_request DEFAULT_SETTINGS Demo.note_text;
     ConsoleError "Redactor: /redact request failed";
     Notice offline_notice] ∧
  vault w' = Demo.vault_mapped ∧
  serverOnline w' = false.
Proof.
  apply (redactFile_detect_failure Demo.host_down
           (Demo.world true Demo.vault_mapped EmptyString) Demo.note
           Demo.note_text); reflexivity.
Defined.





(** ** Inline redaction *)

(** Loading the tokens on file never throws and changes nothing. *)
Lemma load_existingTokens_run host p w :
  load_existingTokens host p w = (Ok (stored_tokens host (vault w) p), w).
Proof.
  unfold load_existingTokens, stored_tokens, parse_existing_tokens,
    getAbstractFileByPath, vault_read, JSON_parse_raw, get_tokens, attempt,
    bind, get, throw, ret.
  cbn. destruct (vault w !! p) as [[raw|]|] eqn:E; cbn; try done.
  destruct (read_throws host p); cbn; [done |].
  rewrite E. cbn.
  destruct (JSON_parse host raw) as [[|[t|]]|]; by cbn.
Qed.

(** [redactSelectedText] from the answer of the service on: the selection
    is replaced, the merged map is saved, and the closing notice depends on
    the outcome of the save alone. *)
Lemma redactSelectedText_online host w f r :
  serverOnline w = true →
  JsString.nonempty (ed_selection (editor w)) = true →
  service_redact host (serverUrl (settings w) +:+ "/redact")
    {| rq_text := ed_selection (editor w);
       rq_deep_scan := deepScan (settings w) |} = Some r →
  redactSelectedText host (Some f) w =
    match saveVaultFile host (mapPath_of (settings w) f)
            (JSON_stringify host (merged_map host w f r))
            (selection_replaced w r) with
    | (Ok _, w2) =>
        (Ok tt,
         set_log (log w2 ++ [Notice (selection_report (entity_counts r))]) w2)
    | (Throw _, w2) =>
        (Ok tt,
         set_log
           (log w2 ++
            [ConsoleError "Redactor: failed to save map";
             Notice "Redactor: selection redacted but map save failed."]) w2)
    end.
Proof.
  intros Hon Hsel Hsome.
  unfold redactSelectedText, assertOnline, getSelection, requestUrl_redact,
    replaceSelection.
  unfold attempt at 1, bind at 1 2 3 4 5 6 7 8 9, get, emit, update, ret.
  cbn. rewrite Hon. cbn. rewrite Hsel. cbn. rewrite Hsome. cbn.
  unfold attempt, bind at 1 2 3. rewrite load_existingTokens_run. cbn.
  unfold merged_map, selection_replaced, redact_request.
  rewrite <- app_assoc. cbn.
  destruct (saveVaultFile host _ _ _) as [[f'|e] w2]; cbn; [done |].
  unfold console_error, new_Notice, emit, bind, update. cbn.
  by rewrite <- app_assoc.
Qed.

Lemma messages_app l1 l2 : messages (l1 ++ l2) = messages l1 ++ messages l2.
Proof. apply List.filter_app. Qed.

Lemma file_writes_app l1 l2 :
  List.filter is_file_write (l1 ++ l2) =
  List.filter is_file_write l1 ++ List.filter is_file_write l2.
Proof. apply List.filter_app. Qed.

Lemma folder_creations_silent l :
  Forall (fun e => is_folder_creation e = true) l →
  messages l = [] ∧ List.filter is_file_write l = [].
Proof.
  induction 1 as [| e l He _ [IH1 IH2]]; [done |].
  destruct e; try discriminate. unfold messages in *. by cbn.
Qed.

Lemma selection_report_not_failure counts :
  selection_report counts ≠
  "Redactor: selection redacted but map save failed.".
Proof.
  unfold selection_report. destruct (_ =? _)%Z; [discriminate |].
  cbn. discriminate.
Qed.

(** The two ways a run of [redactSelectedText] can end once the service has
    answered: the map was saved, or it was not. *)
Lemma redactSelectedText_effects host w f r :
  serverOnline w = true →
  JsString.nonempty (ed_selection (editor w)) = true →
  service_redact host (serverUrl (settings w) +:+ "/redact")
    {| rq_text := ed_selection (editor w);
       rq_deep_scan := deepScan (settings w) |} = Some r →
  let p := mapPath_of (settings w) f in
  let c := JSON_stringify host (merged_map host w f r) in
  let w' := exec (redactSelectedText host (Some f)) w in
  outcome (redactSelectedText host (Some f)) w = Ok tt ∧
  editor w' = editor (selection_replaced w r) ∧
  ∃ folders,
    Forall (fun e => is_folder_creation e = true) folders ∧
    (((∃ f', outcome (saveVaultFile host p c) (selection_replaced w r) = Ok f') ∧
      (∃ ev, (ev = VaultModify p c ∨ ev = VaultCreate p c) ∧
         new_effects w w' =
           [redact_request (settings w) (ed_selection (editor w));
            ReplaceSelection (redacted_text r)] ++ folders ++
           [ev; Notice (selection_report (entity_counts r))]) ∧
      vault w' !! p = Some (File c))
     ∨
     ((∃ e, outcome (saveVaultFile host p c) (selection_replaced w r) = Throw e) ∧
      new_effects w w' =
        [redact_request (settings w) (ed_selection (editor w));
         ReplaceSelection (redacted_text r)] ++ folders ++
        [ConsoleError "Redactor: failed to save map";
         Notice "Redactor: selection redacted but map save failed."] ∧
      ∀ q raw, vault w' !! q = Some (File raw) ↔ vault w !! q = Some (File raw))).
Proof.
  intros Hon Hsel Hsome p c w'. subst w'.
  unfold outcome, exec.
  rewrite (redactSelectedText_online host w f r) by done.
  fold p c.
  destruct (saveVaultFile_cases host p c (selection_replaced w r))
    as (wa & (v' & l & -> & Hl & Hv) & [(e & E) | (f' & ev & E & _ & Hev)]);
    rewrite E; cbn; (split_and!; [done | done |]); exists l; (split; [done |]).
  - right. split_and!; [by eexists | | done].
    apply new_effects_app. cbn. by rewrite <- !app_assoc.
  - left. split_and!; [by eexists | | apply lookup_insert_eq].
    exists ev. split; [done |].
    apply new_effects_app. cbn. by rewrite <- !app_assoc.
Qed.



(** The object spread of line 394 on maps. *)
Lemma spread_monotonic (M F : Tokens) :
  dom (spread M F) = dom M ∪ dom F ∧
  (∀ k v, M !! k = Some v → F !! k = Some v → spread M F !! k = Some v) ∧
  (∀ k v, M !! k = Some v → F !! k = None → spread M F !! k = Some v) ∧
  (∀ k, is_Some (M !! k) → is_Some (spread M F !! k)) ∧
  size M ≤ size (spread M F).
Proof.
  unfold spread. split_and!.
  - rewrite dom_union_L. apply (comm_L (∪)).
  - intros k v _ HF. by apply lookup_union_Some_l.
  - intros k v HM HF. by rewrite lookup_union_r.
  - intros k [v HM]. destruct (F !! k) as [v'|] eqn:HF.
    + exists v'. by apply lookup_union_Some_l.
    + exists v. by rewrite lookup_union_r.
  - rewrite <- !size_dom. apply subseteq_size.
    rewrite dom_union. apply union_subseteq_r.
Qed.

(** What [redactSelectedText] finds on file when the map file is read and
    parsed. *)
Lemma stored_tokens_parsed host (v : gmap string Node) p raw M :
  v !! p = Some (File raw) →
  read_throws host p = false →
  JSON_parse host raw = Some (JMapFile (Some M)) →
  stored_tokens host v p = M.
Proof. intros Hraw Hread Hparse. unfold stored_tokens. by rewrite Hraw, Hread, Hparse. Qed.

(** C1. Inline redaction merges monotonically.  Let [M] be the tokens of
    the map file of the note, as the run reads and parses them, and [F] the
    fragment the service returns.  The run saves a map with tokens [T] such
    that: the keys of [T] are exactly those of [M] and those of [F]; a key
    on which both agree keeps its value, as does a key of [M] that [F] does
    not mention; no key of [M] is lost, so [T] never has fewer keys than
    [M].  That map is what the map file holds after the run whenever the
    run does not report a failed save, and in any case when the vault
    answers [exists] and accepts the [modify]. *)
Theorem merge_monotonic host w f r raw (M : Tokens) :
  serverOnline w = true →
  JsString.nonempty (ed_selection (editor w)) = true →
  service_redact host (serverUrl (settings w) +:+ "/redact")
    {| rq_text := ed_selection (editor w);
       rq_deep_scan := deepScan (settings w) |} = Some r →
  vault w !! mapPath_of (settings w) f = Some (File raw) →
  read_throws host (mapPath_of (settings w) f) = false →
  JSON_parse host raw = Some (JMapFile (Some M)) →
  let w' := exec (redactSelectedText host (Some f)) w in
  let F := map r in
  ∃ T : Tokens,
    (Notice "Redactor: selection redacted but map save failed." ∉
       new_effects w w' →
     vault w' !! mapPath_of (settings w) f =
       Some (File (JSON_stringify host
                     {| file := name f;
                        created := now_ISO host;
                        tokens := T |}))) ∧
    ((∀ q, exists_throws host q = false) →
     modify_throws host (mapPath_of (settings w) f) = false →
     vault w' !! mapPath_of (settings w) f =
       Some (File (JSON_stringify host
                     {| file := name f;
                        created := now_ISO host;
                        tokens := T |}))) ∧
    dom T = dom M ∪ dom F ∧
    (∀ k v, M !! k = Some v → F !! k = Some v → T !! k = Some v) ∧
    (∀ k v, M !! k = Some v → F !! k = None → T !! k = Some v) ∧
    (∀ k, is_Some (M !! k) → is_Some (T !! k)) ∧
    size M ≤ size T.
Proof.
  intros Hon Hsel Hsome Hraw Hread Hparse w' F.
  exists (spread M F).
  assert (Hmerged : merged_map host w f r =
                    {| file := name f; created := now_ISO host;
                       tokens := spread M F |}).
  { unfold merged_map.
    by rewrite (stored_tokens_parsed host _ _ raw M Hraw Hread Hparse). }
  destruct (redactSelectedText_effects host w f r Hon Hsel Hsome)
    as (_ & _ & folders & Hf &
        [(_ & _ & Hv) | ((e & Hthrow) & Hnew & _)]);
    fold w' in Hv || fold w' in Hnew.
  - rewrite Hmerged in Hv.
    split_and!; [done | done | apply spread_monotonic ..].
  - split_and!; [| | apply spread_monotonic ..].
    + intros Hno. destruct Hno. rewrite Hnew.
      apply elem_of_app. right. apply elem_of_app. right.
      apply list_elem_of_further, list_elem_of_here.
    + intros Hex Hmod.
      destruct (saveVaultFile_overwrites host (mapPath_of (settings w) f)
                  (JSON_stringify host (merged_map host w f r))
                  (selection_replaced w r) raw Hex Hmod Hraw)
        as (wa & f' & _ & E).
      unfold outcome in Hthrow. rewrite E in Hthrow. discriminate.
Qed.

Lemma merge_monotonic_witness :
  let w := Demo.world true Demo.vault_mapped "call 07911 123456" in
  let w' := exec (redactSelectedText Demo.host (Some Demo.note)) w in
  ∃ T : Tokens,
    vault w' !! Demo.map_path =
      Some (File (Demo.stringify
                    {| file := "note.md";
                       created := "2026-02-02T12:00:00.000Z";
                       tokens := T |})) ∧
    dom T = dom Demo.person_map ∪ dom (map Demo.phone_reply).
Proof.
  destruct (merge_monotonic Demo.host
              (Demo.world true Demo.vault_mapped "call 07911 123456")
              Demo.note Demo.phone_reply
              (Demo.stringify Demo.stored_map) Demo.person_map
              eq_refl eq_refl eq_refl eq_refl eq_refl eq_refl)
    as (T & _ & Hfile & Hdom & _).
  exists T. split; [| exact Hdom].
  apply Hfile; reflexivity.
Defined.

(** The second scenario of the specification: a phone number redacted
    inline in a note whose map already holds a person. *)
Example inline_scenario :
  let w := Demo.world true Demo.vault_mapped "call 07911 123456" in
  let w' := exec (redactSelectedText Demo.host (Some Demo.note)) w in
  vault w' !! Demo.map_path =
    Some (File (Demo.stringify
                  {| file := "note.md";
                     created := "2026-02-02T12:00:00.000Z";
                     tokens := {[ "[PERSON_1]" := "John Smith";
                                  "[PHONE_1]" := "07911 123456" ]} |})) ∧
  ed_before (editor w') = "Please call [PHONE_1]" ∧
  messages (new_effects w w') = [Notice "Redacted 1 entities in selection"].
Proof. by vm_compute. Qed.

(** C2, as stated, fails.  The map on file says [PERSON_1] is John Smith,
    the fragment says it is Jane Doe; the run overwrites the value and its
    only message is the usual closing report. *)
Lemma merge_conflict_goes_unreported :
  let w := Demo.world true Demo.vault_mapped "ask Jane Doe" in
  let w' := exec (redactSelectedText Demo.host (Some Demo.note)) w in
  conflicting (stored_tokens Demo.host (vault w) Demo.map_path)
    (map Demo.jane_reply) ∧
  vault w' !! Demo.map_path =
    Some (File (Demo.stringify
                  {| file := "note.md";
                     created := "2026-02-02T12:00:00.000Z";
                     tokens := {[ "[PERSON_1]" := "Jane Doe" ]} |})) ∧
  new_effects w w' =
    [redact_request DEFAULT_SETTINGS "ask Jane Doe";
     ReplaceSelection "ask [PERSON_1]";
     VaultModify Demo.map_path
       (Demo.stringify
          {| file := "note.md";
             created := "2026-02-02T12:00:00.000Z";
             tokens := {[ "[PERSON_1]" := "Jane Doe" ]} |});
     Notice "Redacted 1 entities in selection"] ∧
  ¬ warned (new_effects w w')
      (selection_report (entity_counts Demo.jane_reply)).
Proof.
  split_and!.
  - exists "[PERSON_1]", "John Smith", "Jane Doe".
    split_and!; [by vm_compute | by vm_compute | discriminate].
  - by vm_compute.
  - by vm_compute.
  - intros (e & Hin & Hne). vm_compute in Hin.
    apply list_elem_of_singleton in Hin. by subst e.
Qed.

(** C2, amended.  When the map on file and the fragment assign different
    values to a token, the merged map holds the fragment's value for every
    token of the fragment (the last writer wins) and no conflict is
    signalled: either the map is saved and the only message of the run is
    its closing report, or the save fails and the messages are those of the
    failed save. *)
Theorem merge_conflict_last_writer_wins host w f r :
  serverOnline w = true →
  JsString.nonempty (ed_selection (editor w)) = true →
  service_redact host (serverUrl (settings w) +:+ "/redact")
    {| rq_text := ed_selection (editor w);
       rq_deep_scan := deepScan (settings w) |} = Some r →
  conflicting (stored_tokens host (vault w) (mapPath_of (settings w) f))
    (map r) →
  let w' := exec (redactSelectedText host (Some f)) w in
  (∀ k v, map r !! k = Some v →
          tokens (merged_map host w f r) !! k = Some v) ∧
  ((messages (new_effects w w') =
      [Notice (selection_report (entity_counts r))] ∧
    vault w' !! mapPath_of (settings w) f =
      Some (File (JSON_stringify host (merged_map host w f r))))
   ∨
   messages (new_effects w w') =
     [ConsoleError "Redactor: failed to save map";
      Notice "Redactor: selection redacted but map save failed."]).
Proof.
  intros Hon Hsel Hsome _ w'. split.
  { intros k v Hk. cbn. unfold spread. by apply lookup_union_Some_l. }
  destruct (redactSelectedText_effects host w f r Hon Hsel Hsome)
    as (_ & _ & folders & Hf & [(_ & (ev & Hev & Hnew) & Hv) | (_ & Hnew & _)]);
    fold w' in Hnew; rewrite Hnew, !messages_app;
    rewrite (proj1 (folder_creations_silent _ Hf)).
  - left. split; [| exact Hv]. by destruct Hev as [-> | ->].
  - by right.
Qed.

Lemma merge_conflict_last_writer_wins_witness :
  tokens (merged_map Demo.host
            (Demo.world true Demo.vault_mapped "ask Jane Doe")
            Demo.note Demo.jane_reply) !! "[PERSON_1]" = Some "Jane Doe".
Proof.
  apply (merge_conflict_last_writer_wins Demo.host
           (Demo.world true Demo.vault_mapped "ask Jane Doe")
           Demo.note Demo.jane_reply); try reflexivity.
  exists "[PERSON_1]", "John Smith", "Jane Doe".
  split_and!; [reflexivity | reflexivity | discriminate].
Defined.

Lemma stored_tokens_corrupted host v p :
  map_corrupted host v p → stored_tokens host v p = ∅.
Proof.
  intros (raw & Hraw & Hbad). unfold stored_tokens. rewrite Hraw.
  destruct (read_throws host p); [done |].
  destruct Hbad as [? | ->]; done.
Qed.

(** C9, as stated, fails in its second half.  The map file of the note is
    truncated; the run discards it, saves a map made of the fragment alone
    and shows its usual closing report, nothing else.  The world it ends in
    is, log included, the one reached from a well-formed map file without
    entries: nothing is left that tells the two apart. *)
Lemma corrupted_map_goes_unreported :
  let w := Demo.world true Demo.vault_corrupt "call 07911 123456" in
  let w' := exec (redactSelectedText Demo.host (Some Demo.note)) w in
  map_corrupted Demo.host (vault w) Demo.map_path ∧
  new_effects w w' =
    [redact_request DEFAULT_SETTINGS "call 07911 123456";
     ReplaceSelection "call [PHONE_1]";
     VaultModify Demo.map_path
       (Demo.stringify
          {| file := "note.md";
             created := "2026-02-02T12:00:00.000Z";
             tokens := {[ "[PHONE_1]" := "07911 123456" ]} |});
     Notice "Redacted 1 entities in selection"] ∧
  ¬ warned (new_effects w w')
      (selection_report (entity_counts Demo.phone_reply)) ∧
  w' = exec (redactSelectedText Demo.host (Some Demo.note))
         (Demo.world true Demo.vault_empty_map "call 07911 123456").
Proof.
  split_and!.
  - exists Demo.corrupt_raw. split; [by vm_compute | right; by vm_compute].
  - by vm_compute.
  - intros (e & Hin & Hne). vm_compute in Hin.
    apply list_elem_of_singleton in Hin. by subst e.
  - by vm_compute.
Qed.

(** C9, amended.  When inline redaction finds a corrupted map file, it
    discards it and merges into an empty map, so that the map it saves is
    the fragment alone, and the user's action goes through: the selection
    is replaced.  The corruption is not reported: the messages of the run
    are its closing report when the map is saved, those of a failed save
    otherwise. *)
Theorem inline_tolerates_corrupted_map host w f r :
  serverOnline w = true →
  JsString.nonempty (ed_selection (editor w)) = true →
  service_redact host (serverUrl (settings w) +:+ "/redact")
    {| rq_text := ed_selection (editor w);
       rq_deep_scan := deepScan (settings w) |} = Some r →
  map_corrupted host (vault w) (mapPath_of (settings w) f) →
  let w' := exec (redactSelectedText host (Some f)) w in
  outcome (redactSelectedText host (Some f)) w = Ok tt ∧
  editor w' =
    {| ed_before := ed_before (editor w) +:+ redacted_text r;
       ed_selection := EmptyString;
       ed_after := ed_after (editor w) |} ∧
  tokens (merged_map host w f r) = map r ∧
  ((messages (new_effects w w') =
      [Notice (selection_report (entity_counts r))] ∧
    vault w' !! mapPath_of (settings w) f =
      Some (File (JSON_stringify host
                    {| file := name f;
                       created := now_ISO host;
                       tokens := map r |})))
   ∨
   messages (new_effects w w') =
     [ConsoleError "Redactor: failed to save map";
      Notice "Redactor: selection redacted but map save failed."]).
Proof.
  intros Hon Hsel Hsome Hcorrupt w'.
  assert (Hmerged : merged_map host w f r =
                    {| file := name f; created := now_ISO host;
                       tokens := map r |}).
  { unfold merged_map, spread.
    rewrite (stored_tokens_corrupted _ _ _ Hcorrupt).
    by rewrite (right_id_L ∅ (∪)). }
  destruct (redactSelectedText_effects host w f r Hon Hsel Hsome)
    as (Hout & Hed & folders & Hf &
        [(_ & (ev & Hev & Hnew) & Hv) | (_ & Hnew & _)]);
    fold w' in Hnew, Hed; (split_and!; [done | done | by rewrite Hmerged |]);
    rewrite Hnew, !messages_app;
    rewrite (proj1 (folder_creations_silent _ Hf)).
  - left. split; [by destruct Hev as [-> | ->] |].
    by rewrite <- Hmerged.
  - by right.
Qed.

Lemma inline_tolerates_corrupted_map_witness :
  let w := Demo.world true Demo.vault_corrupt "call 07911 123456" in
  let w' := exec (redactSelectedText Demo.host (Some Demo.note)) w in
  editor w' =
    {| ed_before := "Please call [PHONE_1]";
       ed_selection := EmptyString;
       ed_after := " today." |}.
Proof.
  apply (inline_tolerates_corrupted_map Demo.host
           (Demo.world true Demo.vault_corrupt "call 07911 123456")
           Demo.note Demo.phone_reply); try reflexivity.
  exists Demo.corrupt_raw. split; [reflexivity | right; reflexivity].
Defined.

(** C10. Inline redaction replaces the selection before it touches the
    vault: the request and the replacement open what the run adds to the
    log, and the editor ends up holding the redacted text.  When the save
    of the map then fails, the replacement stays; the run writes no file,
    every file of the vault (the map file among them) holds what it held;
    and the messages are the console entry and the notice of the failed
    save, the entity count being reported nowhere. *)
Theorem inline_map_save_failure host w f r :
  serverOnline w = true →
  JsString.nonempty (ed_selection (editor w)) = true →
  service_redact host (serverUrl (settings w) +:+ "/redact")
    {| rq_text := ed_selection (editor w);
       rq_deep_scan := deepScan (settings w) |} = Some r →
  let w' := exec (redactSelectedText host (Some f)) w in
  (∃ rest,
     new_effects w w' =
       [redact_request (settings w) (ed_selection (editor w));
        ReplaceSelection (redacted_text r)] ++ rest) ∧
  editor w' =
    {| ed_before := ed_before (editor w) +:+ redacted_text r;
       ed_selection := EmptyString;
       ed_after := ed_after (editor w) |} ∧
  (∀ e,
     outcome (saveVaultFile host (mapPath_of (settings w) f)
                (JSON_stringify host (merged_map host w f r)))
       (selection_replaced w r) = Throw e →
     messages (new_effects w w') =
       [ConsoleError "Redactor: failed to save map";
        Notice "Redactor: selection redacted but map save failed."] ∧
     (Notice (selection_report (entity_counts r)) ∉ new_effects w w') ∧
     List.filter is_file_write (new_effects w w') = [] ∧
     (∀ q raw, vault w' !! q = Some (File raw) ↔
               vault w !! q = Some (File raw))).
Proof.
  intros Hon Hsel Hsome w'.
  destruct (redactSelectedText_effects host w f r Hon Hsel Hsome)
    as (Hout & Hed & folders & Hf &
        [((f' & Hok) & (ev & Hev & Hnew) & Hv) | (_ & Hnew & Hfiles)]);
    fold w' in Hnew, Hed; (split_and!; [by eexists | done |]).
  { intros e He. rewrite Hok in He. discriminate. }
  intros e _. fold w' in Hfiles.
  destruct (folder_creations_silent _ Hf) as [Hm Hw].
  split_and!; [| | | done].
  - by rewrite Hnew, !messages_app, Hm.
  - intros Hin. assert (Hin' : Notice (selection_report (entity_counts r)) ∈
                               messages (new_effects w w')).
    { unfold messages. apply list_elem_of_In, List.filter_In.
      split; [by apply list_elem_of_In | done]. }
    rewrite Hnew, !messages_app, Hm in Hin'. cbn in Hin'.
    apply elem_of_cons in Hin' as [? | Hin']; [discriminate |].
    apply list_elem_of_singleton in Hin'.
    injection Hin' as Hin'. by apply selection_report_not_failure in Hin'.
  - by rewrite Hnew, !file_writes_app, Hw.
Qed.

Lemma inline_map_save_failure_witness :
  let w := Demo.world true Demo.vault_mapped "call 07911 123456" in
  let w' :=
    exec (redactSelectedText Demo.host_readonly (Some Demo.note)) w in
  messages (new_effects w w') =
    [ConsoleError "Redactor: failed to save map";
     Notice "Redactor: selection redacted but map save failed."] ∧
  (Notice (selection_report (entity_counts Demo.phone_reply)) ∉
     new_effects w w') ∧
  List.filter is_file_write (new_effects w w') = [] ∧
  (∀ q raw, vault w' !! q = Some (File raw) ↔
            vault w !! q = Some (File raw)).
Proof.
  destruct (inline_map_save_failure Demo.host_readonly
              (Demo.world true Demo.vault_mapped "call 07911 123456")
              Demo.note Demo.phone_reply eq_refl eq_refl eq_refl)
    as (_ & _ & Hfail).
  apply (Hfail (IOError Demo.map_path)). reflexivity.
Defined.

(** * Further properties of the code *)

(** ** Exception safety *)
















(** ** What the commands leave alone *)

Section Frame.

Variable s : RedactorSettings.
Variable ps : list string.
Variable ed : bool.

Lemma frame_refl w : frame ps ed w w.
Proof.
  unfold frame. split_and!; try done.
  exists []. by rewrite app_nil_r.
Qed.

Lemma frame_trans w1 w2 w3 :
  frame ps ed w1 w2 → frame ps ed w2 w3 → frame ps ed w1 w3.
Proof.
  intros (S1 & A1 & O1 & E1 & (l1 & L1 & F1) & V1)
         (S2 & A2 & O2 & E2 & (l2 & L2 & F2) & V2).
  unfold frame. split_and!.
  - congruence.
  - congruence.
  - auto.
  - intros Hed. rewrite E2, E1; done.
  - exists (l1 ++ l2). rewrite L2, L1, app_assoc. split; [done |].
    apply Forall_app. split; [done |]. by rewrite <- S1.
  - intros q Hq c. by rewrite V2, V1.
Qed.

Lemma framed_unchanged {A} (m : M A) :
  (∀ w, exec m w = w) → framed s ps ed m.
Proof. intros H w _. rewrite H. apply frame_refl. Qed.

Lemma framed_ret {A} (a : A) : framed s ps ed (ret a).
Proof. by apply framed_unchanged. Qed.

Lemma framed_throw {A} e : framed s ps ed (throw (A := A) e).
Proof. by apply framed_unchanged. Qed.

Lemma framed_get {A} (f : World → A) : framed s ps ed (get f).
Proof. by apply framed_unchanged. Qed.

Lemma framed_bind {A B} (m : M A) (k : A → M B) :
  framed s ps ed m → (∀ a, framed s ps ed (k a)) →
  framed s ps ed (bind m k).
Proof.
  intros Hm Hk w Hs. specialize (Hm w Hs). unfold exec, bind in *.
  destruct (m w) as [[a|e] w1]; cbn in *; [| done].
  eapply frame_trans; [exact Hm |].
  apply Hk. destruct Hm as (-> & _). exact Hs.
Qed.

(** After [get settings] the continuation runs on the settings the frame
    speaks of. *)
Lemma framed_get_settings {B} (k : RedactorSettings → M B) :
  framed s ps ed (k s) → framed s ps ed (bind (get settings) k).
Proof. intros Hk w Hs. unfold exec, bind, get. rewrite Hs. by apply Hk. Qed.

Lemma framed_attempt {A} (m : M A) :
  framed s ps ed m → framed s ps ed (attempt m).
Proof.
  intros Hm w Hs. specialize (Hm w Hs). unfold exec, attempt in *.
  by destruct (m w) as [[a|e] w1].
Qed.

Lemma framed_emit e : allowed s ps e → framed s ps ed (emit e).
Proof.
  intros He w Hs. unfold frame. cbn. split_and!; try done.
  exists [e]. split; [done |]. rewrite Hs. by repeat constructor.
Qed.

Lemma framed_set_offline : framed s ps ed (update (set_serverOnline false)).
Proof.
  intros w Hs. unfold frame. cbn. split_and!; try done.
  exists []. by rewrite app_nil_r.
Qed.

Lemma framed_refreshStatusUI : framed s ps ed refreshStatusUI.
Proof.
  intros w Hs. unfold exec, refreshStatusUI, bind, get, update. cbn.
  destruct (serverOnline w); cbn; unfold frame; cbn;
    (split_and!; try done; exists []; by rewrite app_nil_r).
Qed.

Lemma framed_assertOnline : framed s ps ed assertOnline.
Proof.
  unfold assertOnline, new_Notice. apply framed_bind; [apply framed_get |].
  intros []; cbn; [apply framed_ret |].
  apply framed_bind; [by apply framed_emit | intros; apply framed_ret].
Qed.

Lemma framed_getAbstractFileByPath p :
  framed s ps ed (getAbstractFileByPath p).
Proof.
  apply framed_unchanged. intros w.
  unfold exec, getAbstractFileByPath, bind, get. cbn.
  by destruct (vault w !! p) as [[|]|].
Qed.

Lemma framed_vault_read host f : framed s ps ed (vault_read host f).
Proof.
  apply framed_unchanged. intros w.
  unfold exec, vault_read, bind, get. cbn.
  destruct (read_throws host _); [done |].
  by destruct (vault w !! path f) as [[|]|].
Qed.

Lemma framed_JSON_parse_raw host raw :
  framed s ps ed (JSON_parse_raw host raw).
Proof.
  unfold JSON_parse_raw.
  destruct (JSON_parse host raw); [apply framed_ret | apply framed_throw].
Qed.

Lemma framed_get_tokens d : framed s ps ed (get_tokens d).
Proof. destruct d; [apply framed_throw | apply framed_ret]. Qed.

Lemma framed_openFile host f : framed s ps ed (openFile host f).
Proof.
  unfold openFile. destruct (openFile_throws host _);
    [apply framed_throw | by apply framed_emit].
Qed.

Lemma framed_requestUrl_redact host b :
  framed s ps ed (requestUrl_redact host (serverUrl s +:+ "/redact") b).
Proof.
  unfold requestUrl_redact.
  apply framed_bind; [apply framed_emit; by left |].
  intros _. destruct (service_redact _ _ _); [apply framed_ret | apply framed_throw].
Qed.

Lemma framed_requestUrl_restore host b :
  framed s ps ed (requestUrl_restore host (serverUrl s +:+ "/restore") b).
Proof.
  unfold requestUrl_restore.
  apply framed_bind; [apply framed_emit; right; by left |].
  intros _. destruct (service_restore _ _ _); [apply framed_ret | apply framed_throw].
Qed.

Lemma folders_added_frame w w' : folders_added w w' → frame ps ed w w'.
Proof.
  intros (v' & l & -> & Hl & Hv). unfold frame. cbn. split_and!; try done.
  exists l. split; [done |].
  eapply Forall_impl; [exact Hl |]. intros e He. by destruct e.
Qed.

Lemma framed_saveVaultFile host p c :
  p ∈ ps → framed s ps ed (saveVaultFile host p c).
Proof.
  intros Hp w Hs.
  destruct (saveVaultFile_cases host p c w)
    as (wa & Fa & [(e & E) | (f & ev & E & _ & Hev)]);
    unfold exec; rewrite E; cbn.
  { by apply folders_added_frame. }
  eapply frame_trans; [by apply folders_added_frame |].
  unfold frame. cbn. split_and!; try done.
  - exists [ev]. split; [done |]. repeat constructor.
    by destruct Hev as [-> | ->].
  - intros q Hq c'. rewrite lookup_insert_ne; [done |].
    intros ->. by destruct Hq.
Qed.

End Frame.

Lemma framed_replaceSelection s ps text :
  framed s ps true (replaceSelection text).
Proof.
  intros w Hs. unfold exec, replaceSelection, bind, update, emit. cbn.
  unfold frame. cbn. split_and!; try done.
  exists [ReplaceSelection text]. split; [done |]. by repeat constructor.
Qed.

(** Walks through a command statement by statement; the side conditions
    left are the paths written and the effects logged. *)
Ltac frame_steps :=
  repeat first
    [ apply framed_get_settings; cbv beta
    | apply framed_ret | apply framed_throw | apply framed_get
    | apply framed_assertOnline | apply framed_refreshStatusUI
    | apply framed_set_offline
    | apply framed_getAbstractFileByPath | apply framed_vault_read
    | apply framed_openFile
    | apply framed_JSON_parse_raw | apply framed_get_tokens
    | apply framed_requestUrl_redact | apply framed_requestUrl_restore
    | apply framed_replaceSelection
    | apply framed_attempt
    | apply framed_saveVaultFile
    | apply framed_emit
    | apply framed_bind; [| intros ?]
    | match goal with
      | |- framed _ _ _ (if ?b then _ else _) => destruct b
      | |- framed _ _ _ (match ?x with _ => _ end) => destruct x
      end ].





(** X4. Inline redaction writes at most one file, the token map of the
    note the selection belongs to; the note itself and every other file are
    left as they were.  Settings and active note are untouched, the health
    flag is never raised and requests go to the configured server only. *)
Theorem redactSelectedText_frame host w ctx :
  frame
    match ctx with
    | Some f => [mapPath_of (settings w) f]
    | None => []
    end true w (exec (redactSelectedText host ctx) w).
Proof.
  refine ((_ : framed (settings w) _ true (redactSelectedText host ctx))
            w eq_refl).
  unfold redactSelectedText, load_existingTokens, parse_existing_tokens,
    getSelection, console_error, new_Notice.
  destruct ctx as [f|]; frame_steps; try exact I; set_solver.
Qed.

(** ** The vault helpers in detail *)

Lemma string_length_app (a b : string) :
  String.length (a +:+ b) = (String.length a + String.length b)%nat.
Proof.
  induction a as [| x a IH]; [done |].
  change (S (String.length (a +:+ b)) =
          S (String.length a + String.length b)).
  by rewrite IH.
Qed.

Lemma weight_split c s :
  weight (JsString.split c s) = S (String.length s).
Proof.
  induction s as [| a s IH]; cbn; [done |].
  destruct (decide (a = c)); cbn; [by rewrite IH |].
  destruct (JsString.split c s) as [| part rest]; cbn in *; [done | lia].
Qed.

Lemma weight_filter (P : string → bool) parts :
  (weight (List.filter P parts) ≤ weight parts)%nat.
Proof.
  induction parts as [| part rest IH]; cbn; [done |].
  destruct (P part); cbn; lia.
Qed.

Lemma folder_chain_length parts : ∀ current q,
  q ∈ folder_chain current parts →
  (String.length q + (if JsString.nonempty current then 0 else 1)
   ≤ String.length current + weight parts)%nat.
Proof.
  induction parts as [| part rest IH]; intros current q Hq; cbn in Hq.
  { by apply elem_of_nil in Hq. }
  apply elem_of_cons in Hq as [-> | Hq].
  - destruct current; cbn [JsString.nonempty weight]; [cbn; lia |].
    rewrite !string_length_app. cbn. lia.
  - apply IH in Hq. cbn [weight].
    destruct current; cbn [JsString.nonempty] in *.
    + destruct (JsString.nonempty part); cbn in *; lia.
    + rewrite !string_length_app in Hq. cbn in *. lia.
Qed.

(** The folders on the way to a folder path are no longer than it. *)
Lemma folders_of_length folderPath q :
  q ∈ folders_of folderPath → (String.length q ≤ String.length folderPath)%nat.
Proof.
  intros Hq. apply folder_chain_length in Hq. cbn in Hq.
  pose proof (weight_filter JsString.nonempty
                (JsString.split JsString.slash folderPath)).
  rewrite weight_split in *. lia.
Qed.

Lemma lastIndexOf_lt c s i :
  JsString.lastIndexOf c s = Some i → (i < String.length s)%nat.
Proof.
  revert i. induction s as [| a s IH]; intros i; cbn; [done |].
  destruct (JsString.lastIndexOf c s) as [j|].
  - intros [= <-]. specialize (IH j eq_refl). lia.
  - destruct (decide (a = c)); [intros [= <-]; lia | done].
Qed.

Lemma substring0_length n s :
  String.length (JsString.substring0 n s) = (n `min` String.length s)%nat.
Proof.
  revert s. induction n as [| n IH]; intros [| a s]; cbn; try done.
  by rewrite IH.
Qed.

(** The folder of a path is strictly shorter than the path. *)
Lemma folderPath_of_shorter p :
  JsString.nonempty (folderPath_of p) = true →
  (String.length (folderPath_of p) < String.length p)%nat.
Proof.
  unfold folderPath_of. destruct (JsString.includes _ _); [| done].
  intros Hne. rewrite substring0_length.
  destruct (JsString.lastIndexOf JsString.slash p) as [i|] eqn:E; cbn in *.
  - apply lastIndexOf_lt in E. lia.
  - discriminate.
Qed.

(** [saveVaultFile] never makes a folder of the path it is about to
    write. *)
Lemma own_path_not_a_folder p :
  JsString.nonempty (folderPath_of p) = true →
  p ∉ folders_of (folderPath_of p).
Proof.
  intros Hne Hin. apply folders_of_length in Hin.
  apply folderPath_of_shorter in Hne. lia.
Qed.

Section EnsureFolder.

Variable host : Host.

(** One turn of the loop of [ensureFolder]. *)
Lemma ensureFolder_parts_step current part rest w :
  let cur :=
    if JsString.nonempty current then current +:+ "/" +:+ part else part in
  ensureFolder_parts host current (part :: rest) w =
    if exists_throws host cur then (Throw (IOError cur), w)
    else if bool_decide (is_Some (vault w !! cur))
    then ensureFolder_parts host cur rest w
    else if createFolder_throws host cur
    then ensureFolder_parts host cur rest w
    else ensureFolder_parts host cur rest
           (set_log (log w ++ [VaultCreateFolder cur])
              (set_vault (<[cur := Folder]> (vault w)) w)).
Proof.
  intros cur. cbn [ensureFolder_parts]. fold cur.
  unfold bind at 1. unfold adapter_exists at 1.
  unfold bind at 1, get at 1. cbn beta iota.
  destruct (exists_throws host cur); [done |]. cbn.
  destruct (bool_decide (is_Some (vault w !! cur))) eqn:Hex; cbn; [done |].
  apply bool_decide_eq_false in Hex.
  assert (Hnone : vault w !! cur = None).
  { destruct (vault w !! cur) eqn:E; [| done]. destruct Hex. by eexists. }
  unfold bind, attempt, vault_createFolder, bind, get, throw, update, emit,
    ret. cbn.
  destruct (createFolder_throws host cur); cbn; [done |].
  rewrite Hnone. cbn. by destruct w.
Qed.

(** What was in the vault stays as it was. *)
Lemma ensureFolder_parts_keeps parts : ∀ current w q n,
  vault w !! q = Some n →
  vault (exec (ensureFolder_parts host current parts) w) !! q = Some n.
Proof.
  induction parts as [| part rest IH]; intros current w q n Hq; [done |].
  unfold exec. rewrite ensureFolder_parts_step. cbv zeta.
  set (cur := if JsString.nonempty current then _ else _).
  destruct (exists_throws host cur); [done |].
  destruct (bool_decide (is_Some (vault w !! cur))) eqn:Hex;
    [by apply IH |].
  destruct (createFolder_throws host cur); [by apply IH |].
  apply IH. cbn. rewrite lookup_insert_ne; [done |].
  intros <-. apply bool_decide_eq_false in Hex. destruct Hex. by eexists.
Qed.

(** Paths off the chain are not touched. *)
Lemma ensureFolder_parts_elsewhere parts : ∀ current w q,
  q ∉ folder_chain current parts →
  vault (exec (ensureFolder_parts host current parts) w) !! q = vault w !! q.
Proof.
  induction parts as [| part rest IH]; intros current w q Hq; [done |].
  cbn [folder_chain] in Hq. apply not_elem_of_cons in Hq as [Hne Hq].
  unfold exec. rewrite ensureFolder_parts_step. cbv zeta.
  set (cur := if JsString.nonempty current then _ else _) in *.
  destruct (exists_throws host cur); [done |].
  destruct (bool_decide (is_Some (vault w !! cur))); [by apply IH |].
  destruct (createFolder_throws host cur); [by apply IH |].
  fold (exec (ensureFolder_parts host cur rest)
          (set_log (log w ++ [VaultCreateFolder cur])
             (set_vault (<[cur:=Folder]> (vault w)) w))).
  rewrite IH by done. cbn. by rewrite lookup_insert_ne.
Qed.

(** When the vault cooperates, every path of the chain is there in the
    end, and what is new is a folder. *)
Lemma ensureFolder_parts_post parts :
  (∀ q, exists_throws host q = false) →
  (∀ q, createFolder_throws host q = false) →
  ∀ current w q,
    q ∈ folder_chain current parts →
    vault (exec (ensureFolder_parts host current parts) w) !! q =
      Some (default Folder (vault w !! q)).
Proof.
  intros Hex Hcf.
  induction parts as [| part rest IH]; intros current w q Hq; cbn in Hq.
  { by apply elem_of_nil in Hq. }
  unfold exec. rewrite ensureFolder_parts_step. cbv zeta.
  set (cur := if JsString.nonempty current then _ else _) in *.
  rewrite Hex, Hcf.
  destruct (bool_decide (is_Some (vault w !! cur))) eqn:Hcur.
  - apply bool_decide_eq_true in Hcur as [n Hn].
    destruct (decide (q = cur)) as [-> | Hne].
    + rewrite Hn. cbn. by apply ensureFolder_parts_keeps.
    + apply elem_of_cons in Hq as [? | Hq]; [done |]. by apply IH.
  - apply bool_decide_eq_false in Hcur.
    assert (Hnone : vault w !! cur = None).
    { destruct (vault w !! cur) eqn:E; [| done]. destruct Hcur. by eexists. }
    destruct (decide (q = cur)) as [-> | Hne].
    + rewrite Hnone. cbn. apply ensureFolder_parts_keeps. cbn.
      apply lookup_insert_eq.
    + apply elem_of_cons in Hq as [? | Hq]; [done |].
      fold (exec (ensureFolder_parts host cur rest)
              (set_log (log w ++ [VaultCreateFolder cur])
                 (set_vault (<[cur:=Folder]> (vault w)) w))).
      rewrite IH by done. cbn. by rewrite lookup_insert_ne.
Qed.

(** A second run finds nothing left to do. *)
Lemma ensureFolder_parts_idempotent parts : ∀ current w,
  exec (ensureFolder_parts host current parts)
    (exec (ensureFolder_parts host current parts) w) =
  exec (ensureFolder_parts host current parts) w.
Proof.
  induction parts as [| part rest IH]; intros current w; [done |].
  unfold exec. rewrite (ensureFolder_parts_step current part rest w).
  cbv zeta. set (cur := if JsString.nonempty current then _ else _).
  assert (Hagain : ∀ w0 n,
            vault w0 !! cur = Some n →
            exists_throws host cur = false →
            ensureFolder_parts host current (part :: rest)
              (exec (ensureFolder_parts host cur rest) w0) =
            ensureFolder_parts host cur rest
              (exec (ensureFolder_parts host cur rest) w0)).
  { intros w0 n Hn Hex. rewrite ensureFolder_parts_step. cbv zeta. fold cur.
    rewrite Hex.
    rewrite (bool_decide_eq_true_2 _); [done |].
    eexists. by apply ensureFolder_parts_keeps. }
  destruct (exists_throws host cur) eqn:Hex.
  { cbn [snd]. rewrite ensureFolder_parts_step. cbv zeta. fold cur.
    by rewrite Hex. }
  destruct (bool_decide (is_Some (vault w !! cur))) eqn:Hcur.
  - apply bool_decide_eq_true in Hcur as [n Hn].
    fold (exec (ensureFolder_parts host cur rest) w).
    rewrite (Hagain w n Hn eq_refl). apply IH.
  - destruct (createFolder_throws host cur) eqn:Hcf.
    + fold (exec (ensureFolder_parts host cur rest) w).
      rewrite ensureFolder_parts_step. cbv zeta. fold cur.
      rewrite Hex, Hcf.
      match goal with |- (if ?b then _ else _).2 = _ => destruct b end;
        apply IH.
    + set (w1 := set_log _ _).
      fold (exec (ensureFolder_parts host cur rest) w1).
      rewrite (Hagain w1 Folder); [apply IH | | done].
      subst w1. cbn. apply lookup_insert_eq.
Qed.

End EnsureFolder.

(** X5. With a vault that answers [exists] and accepts [createFolder],
    [ensureFolder] returns normally and leaves exactly this vault: every
    entry that was there, unchanged, plus a folder at each path on the way
    to [folderPath] that was free.  Empty components of the path (doubled
    or leading slashes) give no folder. *)
Theorem ensureFolder_builds_path host folderPath w :
  (∀ q, exists_throws host q = false) →
  (∀ q, createFolder_throws host q = false) →
  let w' := exec (ensureFolder host folderPath) w in
  outcome (ensureFolder host folderPath) w = Ok tt ∧
  ∀ q, vault w' !! q =
       match vault w !! q with
       | Some n => Some n
       | None =>
           if bool_decide (q ∈ folders_of folderPath) then Some Folder
           else None
       end.
Proof.
  intros Hex Hcf w'. subst w'. unfold ensureFolder.
  destruct folderPath as [| a fp]; cbn [JsString.nonempty negb].
  { split; [done |]. intros q. cbn. by destruct (vault w !! q). }
  split; [by apply ensureFolder_parts_ok |].
  intros q. fold (folders_of (String a fp)).
  destruct (vault w !! q) as [n|] eqn:Hq.
  { by apply ensureFolder_parts_keeps. }
  case_bool_decide as Hin.
  - unfold folders_of in Hin.
    rewrite (ensureFolder_parts_post host _ Hex Hcf _ _ _ Hin). by rewrite Hq.
  - unfold folders_of in Hin.
    by rewrite (ensureFolder_parts_elsewhere host _ _ _ _ Hin).
Qed.

Lemma ensureFolder_builds_path_witness :
  let w := Demo.world true Demo.vault_fresh EmptyString in
  let w' := exec (ensureFolder Demo.host "redact//maps/") w in
  vault w' !! "redact/maps" = Some Folder ∧
  vault w' !! "redact" = Some Folder ∧
  vault w' !! "redact/" = None ∧
  vault w' !! "notes/note.md" = Some (File Demo.note_text).
Proof.
  pose proof (proj2 (ensureFolder_builds_path Demo.host "redact//maps/"
                (Demo.world true Demo.vault_fresh EmptyString)
                (fun _ => eq_refl) (fun _ => eq_refl))) as H.
  split_and!; rewrite H; reflexivity.
Defined.

(** Once every path of the chain is in the vault, a run has nothing to
    do, however the vault behaves. *)
Lemma ensureFolder_parts_settled host parts : ∀ current w,
  (∀ q, q ∈ folder_chain current parts → is_Some (vault w !! q)) →
  exec (ensureFolder_parts host current parts) w = w.
Proof.
  induction parts as [| part rest IH]; intros current w Hall; [done |].
  unfold exec. rewrite ensureFolder_parts_step. cbv zeta.
  cbn [folder_chain] in Hall.
  set (cur := if JsString.nonempty current then _ else _) in *.
  destruct (exists_throws host cur); [done |].
  rewrite bool_decide_eq_true_2 by (apply Hall, list_elem_of_here).
  apply IH. intros q Hq. by apply Hall, list_elem_of_further.
Qed.

(** X6. Running [ensureFolder] again changes nothing in two cases.  When
    the vault behaves on the second run as it did on the first (it answers
    and rejects the same calls), the second run leaves the world of the
    first as it is, whatever that behaviour was.  And once a first run
    went through with a vault that answered [exists] and accepted
    [createFolder], any later run leaves the world as it is, however the
    vault behaves by then.  (A folder whose creation was rejected and
    swallowed the first time may still be created by a later run when the
    vault has changed its mind.) *)
Theorem ensureFolder_idempotent host folderPath w :
  exec (ensureFolder host folderPath)
    (exec (ensureFolder host folderPath) w) =
  exec (ensureFolder host folderPath) w ∧
  ((∀ q, exists_throws host q = false) →
   (∀ q, createFolder_throws host q = false) →
   ∀ later,
     exec (ensureFolder later folderPath)
       (exec (ensureFolder host folderPath) w) =
     exec (ensureFolder host folderPath) w).
Proof.
  split.
  - unfold ensureFolder. destruct (negb _); [done |].
    apply ensureFolder_parts_idempotent.
  - intros Hex Hcf later. unfold ensureFolder.
    destruct (negb _); [done |].
    apply ensureFolder_parts_settled. intros q Hq.
    rewrite (ensureFolder_parts_post host _ Hex Hcf _ _ _ Hq). by eexists.
Qed.

Lemma ensureFolder_idempotent_witness :
  let w1 :=
    exec (ensureFolder Demo.host "redact/maps")
      (Demo.world true Demo.vault_fresh EmptyString) in
  exec (ensureFolder Demo.host_readonly "redact/maps") w1 = w1.
Proof.
  apply (proj2 (ensureFolder_idempotent Demo.host "redact/maps"
                  (Demo.world true Demo.vault_fresh EmptyString))
           (fun _ => eq_refl) (fun _ => eq_refl) Demo.host_readonly).
Defined.

(** What [saveVaultFile] does before it writes, with an [exists] that
    answers: the folders are seen to and the path itself is as it was. *)
Lemma saveVaultFile_prelude host p w :
  (∀ q, exists_throws host q = false) →
  ∃ wa,
    (if JsString.nonempty (folderPath_of p)
     then ensureFolder host (folderPath_of p) else ret tt) w = (Ok tt, wa) ∧
    folders_added w wa ∧
    vault wa !! p = vault w !! p.
Proof.
  intros Hex. destruct (JsString.nonempty (folderPath_of p)) eqn:Hne.
  2: { exists w. split_and!; [done | apply folders_added_refl | done]. }
  exists (exec (ensureFolder host (folderPath_of p)) w). split_and!.
  - pose proof (ensureFolder_parts_ok host
                  (List.filter JsString.nonempty
                     (JsString.split JsString.slash (folderPath_of p)))
                  Hex EmptyString w) as Hok.
    unfold ensureFolder, exec, outcome in *. rewrite Hne. cbn [negb].
    destruct (ensureFolder_parts _ _ _ w) as [r wa]. cbn in *. by subst r.
  - apply ensureFolder_folders.
  - unfold ensureFolder. rewrite Hne. cbn [negb].
    apply ensureFolder_parts_elsewhere. by apply own_path_not_a_folder.
Qed.

(** X7. With an [exists] that answers, [saveVaultFile] succeeds exactly
    when the vault accepts the write the path calls for: [modify] when a
    file is there, [create] when the path is free.  On a path held by a
    folder it always fails; a rejected [createFolder] on the way does not
    make it fail. *)
Theorem saveVaultFile_succeeds_iff host p c w :
  (∀ q, exists_throws host q = false) →
  (∃ f, outcome (saveVaultFile host p c) w = Ok f) ↔
  match vault w !! p with
  | Some (File _) => modify_throws host p = false
  | Some Folder => False
  | None => create_throws host p = false
  end.
Proof.
  intros Hex.
  destruct (saveVaultFile_prelude host p w Hex) as (wa & E & _ & Hp).
  unfold outcome, saveVaultFile, bind. rewrite E.
  unfold getAbstractFileByPath, vault_modify, vault_create, bind, get, throw,
    update, emit, ret. cbn. rewrite Hp.
  destruct (vault w !! p) as [[old|]|] eqn:Hw; cbn.
  - destruct (modify_throws host p); cbn.
    + split; [intros [f Hf]; discriminate | discriminate].
    + rewrite Hp. cbn. split; [done | by eexists].
  - destruct (create_throws host p); cbn.
    + split; [intros [f Hf]; discriminate | done].
    + rewrite Hp. cbn. split; [intros [f Hf]; discriminate | done].
  - destruct (create_throws host p); cbn.
    + split; [intros [f Hf]; discriminate | discriminate].
    + rewrite Hp. cbn. split; [done | by eexists].
Qed.

Lemma saveVaultFile_succeeds_iff_witness :
  (∃ f, outcome (saveVaultFile Demo.host "redact/maps/new.md.map.json"
                   "{}")
          (Demo.world true Demo.vault_fresh EmptyString) = Ok f) ∧
  ¬ (∃ f, outcome (saveVaultFile Demo.host "redact/maps" "{}")
            (Demo.world true Demo.vault_mapped EmptyString) = Ok f).
Proof.
  split.
  - apply (saveVaultFile_succeeds_iff Demo.host
             "redact/maps/new.md.map.json" "{}"
             (Demo.world true Demo.vault_fresh EmptyString)
             (fun _ => eq_refl)).
    reflexivity.
  - intros H.
    apply (saveVaultFile_succeeds_iff Demo.host "redact/maps" "{}"
             (Demo.world true Demo.vault_mapped EmptyString)
             (fun _ => eq_refl)) in H.
    exact H.
Defined.

(** The write [saveVaultFile] ends with: [modify] on a file, [create] on
    a free path. *)
Lemma saveVaultFile_write host p c w f :
  outcome (saveVaultFile host p c) w = Ok f →
  ∃ wa,
    folders_added w wa ∧
    path f = p ∧
    exec (saveVaultFile host p c) w =
      set_log
        (log wa ++
         [match vault wa !! p with
          | Some (File _) => VaultModify p c
          | _ => VaultCreate p c
          end])
        (set_vault (<[p := File c]> (vault wa)) wa).
Proof.
  unfold outcome, exec, saveVaultFile.
  set (m := if JsString.nonempty (folderPath_of p) then _ else _).
  assert (Hm : folders_added w (exec m w)).
  { subst m. destruct (JsString.nonempty _).
    - apply ensureFolder_folders.
    - apply folders_added_refl. }
  unfold bind. unfold exec in Hm.
  destruct (m w) as [[[]|e] wa]; cbn in Hm; [| discriminate].
  unfold getAbstractFileByPath, vault_modify, vault_create, bind, get, throw,
    update, emit, ret. cbn.
  destruct (vault wa !! p) as [[raw|]|] eqn:Hp; cbn.
  - destruct (modify_throws host p); cbn; [discriminate |].
    rewrite Hp. cbn. intros [= <-]. exists wa. by rewrite Hp.
  - destruct (create_throws host p); cbn; [discriminate |].
    rewrite Hp. discriminate.
  - destruct (create_throws host p); cbn; [discriminate |].
    rewrite Hp. cbn. intros [= <-]. exists wa. by rewrite Hp.
Qed.

(** X8. A successful [saveVaultFile p c] stores [c] at [p]: reading [p]
    back gives a file holding [c], the handle returned is that of [p], no
    other file changes, and the run makes one file write, a [modify] when
    [p] held a file before and a [create] otherwise. *)
Theorem saveVaultFile_stores host p c w f :
  outcome (saveVaultFile host p c) w = Ok f →
  let w' := exec (saveVaultFile host p c) w in
  path f = p ∧
  vault w' !! p = Some (File c) ∧
  (∀ q raw, q ≠ p →
     vault w' !! q = Some (File raw) ↔ vault w !! q = Some (File raw)) ∧
  List.filter is_file_write (new_effects w w') =
    [match vault w !! p with
     | Some (File _) => VaultModify p c
     | _ => VaultCreate p c
     end].
Proof.
  intros Hok w'. subst w'.
  destruct (saveVaultFile_write host p c w f Hok)
    as (wa & (v' & l & -> & Hl & Hv) & Hpath & ->).
  cbn. split_and!.
  - done.
  - apply lookup_insert_eq.
  - intros q raw Hne. by rewrite lookup_insert_ne, Hv.
  - set (ev := match v' !! p with Some (File _) => _ | _ => _ end).
    rewrite (new_effects_app w _ (l ++ [ev]))
      by (cbn; by rewrite <- app_assoc).
    rewrite file_writes_app, (proj2 (folder_creations_silent _ Hl)).
    assert (Hev : ev = match vault w !! p with
                       | Some (File _) => VaultModify p c
                       | _ => VaultCreate p c
                       end).
    { subst ev. destruct (v' !! p) as [[old|]|] eqn:E.
      - apply Hv in E. by rewrite E.
      - destruct (vault w !! p) as [[old|]|] eqn:E'; try done.
        apply Hv in E'. congruence.
      - destruct (vault w !! p) as [[old|]|] eqn:E'; try done.
        apply Hv in E'. congruence. }
    rewrite <- Hev. subst ev. by destruct (v' !! p) as [[|]|].
Qed.

Lemma saveVaultFile_stores_witness :
  let w := Demo.world true Demo.vault_mapped EmptyString in
  let w' := exec (saveVaultFile Demo.host Demo.map_path "{}") w in
  vault w' !! Demo.map_path = Some (File "{}") ∧
  List.filter is_file_write (new_effects w w') =
    [VaultModify Demo.map_path "{}"].
Proof.
  destruct (saveVaultFile_stores Demo.host Demo.map_path "{}"
              (Demo.world true Demo.vault_mapped EmptyString)
              {| path := Demo.map_path; name := "note.md.map.json" |}
              eq_refl) as (_ & H1 & _ & H2).
  split; [exact H1 | exact H2].
Defined.

(** X9. A failed [saveVaultFile] writes nothing: every file of the vault
    holds what it held, no file appears, and all the run may have done is
    create folders on the way. *)
Theorem saveVaultFile_failure_writes_nothing host p c w e :
  outcome (saveVaultFile host p c) w = Throw e →
  let w' := exec (saveVaultFile host p c) w in
  (∀ q raw, vault w' !! q = Some (File raw) ↔ vault w !! q = Some (File raw)) ∧
  Forall (fun ev => is_folder_creation ev = true) (new_effects w w') ∧
  List.filter is_file_write (new_effects w w') = [].
Proof.
  intros Hthrow w'. subst w'. unfold outcome, exec in *.
  destruct (saveVaultFile_cases host p c w)
    as (wa & (v' & l & -> & Hl & Hv) & [(e' & E) | (f & ev & E & _)]);
    rewrite E in *; [| discriminate].
  cbn. rewrite (new_effects_app w _ l) by done.
  split_and!; [done | done | by apply folder_creations_silent].
Qed.

Lemma saveVaultFile_failure_writes_nothing_witness :
  let w := Demo.world true Demo.vault_fresh EmptyString in
  let w' := exec (saveVaultFile Demo.host_readonly Demo.map_path "{}") w in
  List.filter is_file_write (new_effects w w') = [].
Proof.
  apply (saveVaultFile_failure_writes_nothing Demo.host_readonly
           Demo.map_path "{}"
           (Demo.world true Demo.vault_fresh EmptyString)
           (IOError Demo.map_path)).
  reflexivity.
Defined.

(** ** Status display and status command *)

Lemma elem_of_removeClass c x cs : x ∈ removeClass c cs ↔ x ≠ c ∧ x ∈ cs.
Proof.
  unfold removeClass. apply (list_elem_of_filter (fun y => y ≠ c)).
Qed.

Lemma elem_of_addClass c x cs : x ∈ addClass c cs ↔ x = c ∨ x ∈ cs.
Proof.
  unfold addClass. case_bool_decide as Hin.
  - split; [by right | intros [-> | ?]; done].
  - rewrite elem_of_app, list_elem_of_singleton. tauto.
Qed.

Lemma removeClass_absent c cs : c ∉ cs → removeClass c cs = cs.
Proof.
  unfold removeClass. induction cs as [| x cs IH]; intros Hc; [done |].
  apply not_elem_of_cons in Hc as [Hne Hc].
  rewrite filter_cons_True by done. by rewrite IH.
Qed.

Lemma swap_class_idempotent on off cs :
  on ≠ off →
  addClass on (removeClass off (addClass on (removeClass off cs))) =
  addClass on (removeClass off cs).
Proof.
  intros Hne. set (cs' := addClass on (removeClass off cs)).
  assert (Hoff : off ∉ cs').
  { subst cs'. rewrite elem_of_addClass, elem_of_removeClass.
    intros [? | [? _]]; congruence. }
  rewrite (removeClass_absent _ _ Hoff).
  unfold addClass at 1. rewrite bool_decide_eq_true_2; [done |].
  subst cs'. apply elem_of_addClass. by left.
Qed.

(** X10. After [refreshStatusUI] the status bar shows the cached health
    state and nothing else: it carries the modifier class of that state
    and not the other one, every other class is kept, the text and the
    ribbon colour are those of the state, and refreshing again changes
    nothing. *)
Theorem refreshStatusUI_shows_state w :
  let w' := exec refreshStatusUI w in
  let on :=
    if serverOnline w then "redactor-status-bar--online"
    else "redactor-status-bar--offline" in
  let off :=
    if serverOnline w then "redactor-status-bar--offline"
    else "redactor-status-bar--online" in
  on ∈ statusBarClasses w' ∧
  (off ∉ statusBarClasses w') ∧
  (∀ c, c ≠ on → c ≠ off →
        c ∈ statusBarClasses w' ↔ c ∈ statusBarClasses w) ∧
  statusBarText w' =
    (if serverOnline w then "🔒 Redactor: online"
     else "🔒 Redactor: offline") ∧
  ribbonColor w' =
    (if serverOnline w then "var(--color-green)" else "var(--color-red)") ∧
  exec refreshStatusUI w' = w'.
Proof.
  unfold exec, refreshStatusUI, bind, get, update. cbn.
  destruct (serverOnline w) eqn:Hon; cbn; rewrite ?Hon; cbn;
    (split_and!;
     [ apply elem_of_addClass; by left
     | rewrite elem_of_addClass, elem_of_removeClass;
       intros [? | [? _]]; congruence
     | intros c H1 H2; rewrite elem_of_addClass, elem_of_removeClass; tauto
     | done
     | done
     | unfold set_statusUI; cbn; f_equal;
       apply swap_class_idempotent; discriminate ]).
Qed.

Lemma checkServerStatus_run host w :
  checkServerStatus host w =
    (Ok tt,
     set_log
       (log w ++
        [Request (serverUrl (settings w) +:+ "/status") "GET" NoBody;
         Notice
           match service_status host (serverUrl (settings w) +:+ "/status")
           with
           | Some data => status_online_report data
           | None => status_offline_report
           end]) w).
Proof.
  unfold checkServerStatus, requestUrl_status, new_Notice, attempt, bind,
    get, emit, update, throw, ret. cbn.
  destruct (service_status host _); cbn; unfold set_log; cbn;
    by rewrite <- app_assoc.
Qed.

(** X11. The status command only reports: it sends one [GET /status],
    shows one notice (the online report when the service answers, the
    offline report otherwise) and leaves the cached health state, the
    status display and everything else as they were.  A command run after
    it is gated by the state of the last poll, not by what the status
    command just saw. *)
Theorem checkServerStatus_only_reports host w :
  let w' := exec (checkServerStatus host) w in
  new_effects w w' =
    [Request (serverUrl (settings w) +:+ "/status") "GET" NoBody;
     Notice
       match service_status host (serverUrl (settings w) +:+ "/status") with
       | Some data => status_online_report data
       | None => status_offline_report
       end] ∧
  w' = set_log (log w') w ∧
  serverOnline w' = serverOnline w ∧
  outcome assertOnline w' = outcome assertOnline w.
Proof.
  intros w'. subst w'. unfold exec. rewrite checkServerStatus_run. cbn.
  split_and!; try done.
  - by apply new_effects_app.
  - unfold outcome, assertOnline, new_Notice, bind, get, emit, update, ret.
    cbn. by destruct (serverOnline w).
Qed.

(** X12. The "Test Connection" button both reports and refreshes, from
    two separate probes: it sends two [GET /status] requests, shows the
    report of the first answer, and leaves the cached health state at the
    outcome of the second.  When the two answers differ, the notice and
    the state disagree. *)
Theorem testConnection_refreshes first second w :
  let w' := exec (testConnection first second) w in
  outcome (testConnection first second) w = Ok tt ∧
  serverOnline w' = probe_ok second w ∧
  List.filter is_request (new_effects w w') =
    [Request (serverUrl (settings w) +:+ "/status") "GET" NoBody;
     Request (serverUrl (settings w) +:+ "/status") "GET" NoBody] ∧
  messages (new_effects w w') =
    [Notice
       match service_status first (serverUrl (settings w) +:+ "/status")
       with
       | Some data => status_online_report data
       | None => status_offline_report
       end].
Proof.
  intros w'. subst w'. unfold outcome, exec, testConnection, bind.
  rewrite checkServerStatus_run.
  set (w1 := set_log _ w).
  destruct (updateServerStatus_run second w1) as (t & cl & col & E).
  rewrite E. cbn. split_and!; try done.
  all: rewrite (new_effects_app w _
         [Request (serverUrl (settings w) +:+ "/status") "GET" NoBody;
          Notice
            match service_status first (serverUrl (settings w) +:+ "/status")
            with
            | Some data => status_online_report data
            | None => status_offline_report
            end;
          Request (serverUrl (settings w) +:+ "/status") "GET" NoBody])
      by (cbn; by rewrite <- app_assoc).
  all: done.
Qed.

(** The service answers the first probe and is gone for the second: the
    notice says online, the state says offline. *)
Example testConnection_between_probes :
  let w := Demo.world true Demo.vault_fresh EmptyString in
  let w' := exec (testConnection Demo.host Demo.host_down) w in
  serverOnline w' = false ∧
  messages (new_effects w w') =
    [Notice
       (status_online_report
          {| status := "ok"; spacy := true; phi3 := false; model := None |})].
Proof. by vm_compute. Qed.

(** ** Guards and failures of the commands *)

(** X13. When the note cannot be read, whole-document redaction stops
    there: it logs the failure and tells the user which note it could not
    read; nothing is sent to the service and the world is otherwise as it
    was, the health flag included. *)
Theorem redactFile_unreadable_note host w f :
  serverOnline w = true →
  (read_throws host (path f) = true ∨
   ∀ raw, vault w !! path f ≠ Some (File raw)) →
  redactFile host f w =
    (Ok tt,
     set_log
       (log w ++
        [ConsoleError "Redactor: failed to read file";
         Notice ("Redactor: could not read " +:+ name f)]) w).
Proof.
  intros Hon Hbad.
  unfold redactFile, assertOnline, vault_read, attempt, console_error,
    new_Notice, bind, get, emit, update, throw, ret.
  cbn. rewrite Hon. cbn.
  destruct (read_throws host (path f)) eqn:Hread; cbn.
  { unfold set_log. cbn. by rewrite <- app_assoc. }
  destruct Hbad as [? | Hbad]; [done |].
  destruct (vault w !! path f) as [[raw|]|] eqn:E; cbn.
  - by destruct (Hbad raw).
  - unfold set_log. cbn. by rewrite <- app_assoc.
  - unfold set_log. cbn. by rewrite <- app_assoc.
Qed.

Lemma redactFile_unreadable_note_witness :
  let w := Demo.world true Demo.vault_fresh EmptyString in
  let gone := {| path := "notes/gone.md"; name := "gone.md" |} in
  redactFile Demo.host gone w =
    (Ok tt,
     set_log
       [ConsoleError "Redactor: failed to read file";
        Notice "Redactor: could not read gone.md"] w).
Proof.
  apply (redactFile_unreadable_note Demo.host
           (Demo.world true Demo.vault_fresh EmptyString)
           {| path := "notes/gone.md"; name := "gone.md" |}).
  - reflexivity.
  - right. intros raw. vm_compute. discriminate.
Defined.

(** X14. Inline redaction checks what it is given before it calls the
    service: with an empty selection it only says that no text is
    selected, and with a selection but no note behind the editor it only
    says that there is no active file.  Either way nothing is sent, the
    editor and the vault are untouched. *)
Theorem redactSelectedText_guards host w ctx :
  serverOnline w = true →
  (ed_selection (editor w) = EmptyString →
   redactSelectedText host ctx w =
     (Ok tt, set_log (log w ++ [Notice "No text selected."]) w)) ∧
  (ed_selection (editor w) ≠ EmptyString → ctx = None →
   redactSelectedText host ctx w =
     (Ok tt, set_log (log w ++ [Notice "No active file."]) w)).
Proof.
  intros Hon.
  unfold redactSelectedText, assertOnline, getSelection, new_Notice, bind,
    get, emit, update, ret.
  cbn. rewrite Hon. cbn. split.
  - by intros ->.
  - intros Hsel ->. by destruct (ed_selection (editor w)).
Qed.

Lemma redactSelectedText_guards_witness :
  redactSelectedText Demo.host (Some Demo.note)
    (Demo.world true Demo.vault_fresh EmptyString) =
    (Ok tt,
     set_log [Notice "No text selected."]
       (Demo.world true Demo.vault_fresh EmptyString)) ∧
  redactSelectedText Demo.host None
    (Demo.world true Demo.vault_fresh "ask Jane Doe") =
    (Ok tt,
     set_log [Notice "No active file."]
       (Demo.world true Demo.vault_fresh "ask Jane Doe")).
Proof.
  split.
  - apply (proj1 (redactSelectedText_guards Demo.host
             (Demo.world true Demo.vault_fresh EmptyString)
             (Some Demo.note) eq_refl)).
    reflexivity.
  - apply (proj2 (redactSelectedText_guards Demo.host
             (Demo.world true Demo.vault_fresh "ask Jane Doe")
             None eq_refl)); [discriminate | reflexivity].
Defined.

(** X15. When the detect call of inline redaction fails, the selection is
    not replaced: the editor and the vault are as they were, the run has
    sent the one request, logged the failure and shown the offline notice,
    and the service is recorded as OFFLINE. *)
Theorem redactSelectedText_detect_failure host w f :
  serverOnline w = true →
  JsString.nonempty (ed_selection (editor w)) = true →
  service_redact host (serverUrl (settings w) +:+ "/redact")
    {| rq_text := ed_selection (editor w);
       rq_deep_scan := deepScan (settings w) |} = None →
  let w' := exec (redactSelectedText host (Some f)) w in
  editor w' = editor w ∧
  vault w' = vault w ∧
  serverOnline w' = false ∧
  new_effects w w' =
    [redact_request (settings w) (ed_selection (editor w));
     ConsoleError "Redactor: /redact request failed";
     Notice offline_notice].
Proof.
  intros Hon Hsel Hnone w'. subst w'.
  unfold exec, redactSelectedText, assertOnline, getSelection,
    requestUrl_redact, refreshStatusUI, console_error, new_Notice.
  unfold attempt, bind, get, emit, update, throw, ret.
  cbn. rewrite Hon. cbn. rewrite Hsel. cbn. rewrite Hnone. cbn.
  split_and!; try done.
  apply new_effects_app. cbn. by rewrite <- !app_assoc.
Qed.

Lemma redactSelectedText_detect_failure_witness :
  let w := Demo.world true Demo.vault_mapped "ask Jane Doe" in
  let w' := exec (redactSelectedText Demo.host_down (Some Demo.note)) w in
  editor w' = editor w ∧
  vault w' = vault w ∧
  serverOnline w' = false ∧
  new_effects w w' =
    [redact_request DEFAULT_SETTINGS "ask Jane Doe";
     ConsoleError "Redactor: /redact request failed";
     Notice offline_notice].
Proof.
  apply (redactSelectedText_detect_failure Demo.host_down
           (Demo.world true Demo.vault_mapped "ask Jane Doe") Demo.note);
    reflexivity.
Defined.

(** The [/restore] request of a restoration. *)
Lemma restoreCurrentNote_online host w f raw toks text :
  serverOnline w = true →
  activeFile w = Some f →
  vault w !! mapPath_of (settings w) f = Some (File raw) →
  read_throws host (mapPath_of (settings w) f) = false →
  JSON_parse host raw = Some (JMapFile toks) →
  read_throws host (path f) = false →
  vault w !! path f = Some (File text) →
  restoreCurrentNote host w =
    (let s := settings w in
     let body := {| rs_text := text; rs_map := toks |} in
     let w1 :=
       set_log
         (log w ++
          [Request (serverUrl s +:+ "/restore") "POST" (RestoreBody body)])
         w in
     match service_restore host (serverUrl s +:+ "/restore") body with
     | None =>
         (console_error "Redactor: /restore request failed" >>
          new_Notice offline_notice >>
          update (set_serverOnline false) >>
          refreshStatusUI) w1
     | Some response =>
         (let* r := attempt (
            let* restoredFile :=
              saveVaultFile host (restoredPath_of s f)
                (restored_text response) in
            new_Notice
              ("Restored " +:+ dquote +:+ name f +:+ dquote +:+
               " successfully") >>
            openFile host restoredFile) in
          match r with
          | inl _ =>
              console_error "Redactor: failed to save restored file" >>
              new_Notice "Redactor: could not save restored file."
          | inr _ => ret tt
          end) w1
     end).
Proof.
  intros Hon Hact Hraw Hrm Hparse Hrf Htext.
  unfold restoreCurrentNote at 1, assertOnline, getAbstractFileByPath,
    vault_read, JSON_parse_raw, get_tokens, requestUrl_restore.
  unfold attempt at 1 2 3, bind at 1 2 3 4 5 6 7 8 9 10 11 12, get, emit,
    update, ret.
  cbn. rewrite Hon. cbn. rewrite Hact. cbn. rewrite Hraw. cbn.
  rewrite Hrm, Hraw. cbn. rewrite Hparse. cbn. rewrite Hrf, Htext. cbn.
  destruct (service_restore host _ _) as [response|]; reflexivity.
Qed.

(** X16. Restoration sends the service the current text of the note
    together with the tokens of its map file, under [/restore].  Whenever
    the run does not report that the restored file could not be saved, the
    restored copy of the note holds the text the service returned, and the
    map file still holds what it held unless it is that very copy. *)
Theorem restoreCurrentNote_restores host w f raw toks text r :
  serverOnline w = true →
  activeFile w = Some f →
  vault w !! mapPath_of (settings w) f = Some (File raw) →
  read_throws host (mapPath_of (settings w) f) = false →
  JSON_parse host raw = Some (JMapFile toks) →
  read_throws host (path f) = false →
  vault w !! path f = Some (File text) →
  service_restore host (serverUrl (settings w) +:+ "/restore")
    {| rs_text := text; rs_map := toks |} = Some r →
  let w' := exec (restoreCurrentNote host) w in
  List.filter is_request (new_effects w w') =
    [Request (serverUrl (settings w) +:+ "/restore") "POST"
       (RestoreBody {| rs_text := text; rs_map := toks |})] ∧
  (Notice "Redactor: could not save restored file." ∉ new_effects w w' →
   vault w' !! restoredPath_of (settings w) f =
     Some (File (restored_text r)) ∧
   (restoredPath_of (settings w) f ≠ mapPath_of (settings w) f →
    vault w' !! mapPath_of (settings w) f = Some (File raw))).
Proof.
  intros Hon Hact Hraw Hrm Hparse Hrf Htext Hsome w'. subst w'.
  unfold exec.
  rewrite (restoreCurrentNote_online host w f raw toks text) by done.
  cbn zeta. rewrite Hsome.
  set (req := Request _ _ _).
  set (w1 := set_log _ w).
  assert (Hlog1 : log w1 = log w ++ [req]) by done.
  assert (Hraw1 : vault w1 !! mapPath_of (settings w) f = Some (File raw))
    by done.
  clearbody w1.
  unfold attempt, bind.
  destruct (saveVaultFile_cases host (restoredPath_of (settings w) f)
              (restored_text r) w1)
    as (wa & (v' & l & -> & Hl & Hv) & [(e & E) | (f1 & ev & E & _ & Hev)]);
    rewrite E.
  { unfold console_error, new_Notice, emit, update. cbn.
    rewrite (new_effects_app w _
      (req :: l ++
       [ConsoleError "Redactor: failed to save restored file";
        Notice "Redactor: could not save restored file."]))
      by (cbn; rewrite Hlog1; by rewrite <- !app_assoc).
    split.
    - cbn. rewrite List.filter_app. cbn. rewrite app_nil_r.
      f_equal. clear -Hl. induction Hl as [| x l Hx _ IH]; [done |].
      destruct x; try discriminate. exact IH.
    - intros Hno. destruct Hno.
      apply list_elem_of_further, elem_of_app. right.
      apply list_elem_of_further, list_elem_of_here. }
  unfold new_Notice, openFile, emit, update, throw, ret. cbn.
  assert (Hreq : ∀ tail,
            List.filter is_request tail = [] →
            List.filter is_request (req :: l ++ ev :: tail) = [req]).
  { intros tail Ht. cbn. rewrite List.filter_app. cbn.
    assert (Hevr : is_request ev = false) by by destruct Hev as [-> | ->].
    rewrite Hevr, Ht, app_nil_r. f_equal.
    clear -Hl. induction Hl as [| x l Hx _ IH]; [done |].
    destruct x; try discriminate. exact IH. }
  assert (Hvault : ∀ v,
            v = <[restoredPath_of (settings w) f := File (restored_text r)]> v' →
            v !! restoredPath_of (settings w) f =
              Some (File (restored_text r)) ∧
            (restoredPath_of (settings w) f ≠ mapPath_of (settings w) f →
             v !! mapPath_of (settings w) f = Some (File raw))).
  { intros v ->. split; [apply lookup_insert_eq |].
    intros Hne. rewrite lookup_insert_ne by done. by apply Hv. }
  destruct (openFile_throws host (path f1)); cbn.
  - rewrite (new_effects_app w _
      (req :: l ++ ev ::
       [Notice ("Restored " +:+ dquote +:+ name f +:+ dquote +:+
                " successfully");
        ConsoleError "Redactor: failed to save restored file";
        Notice "Redactor: could not save restored file."]))
      by (cbn; rewrite Hlog1; by rewrite <- !app_assoc).
    split; [by apply Hreq |]. intros _. by apply Hvault.
  - rewrite (new_effects_app w _
      (req :: l ++ ev ::
       [Notice ("Restored " +:+ dquote +:+ name f +:+ dquote +:+
                " successfully");
        OpenFile (path f1)]))
      by (cbn; rewrite Hlog1; by rewrite <- !app_assoc).
    split; [by apply Hreq |]. intros _. by apply Hvault.
Qed.

Lemma restoreCurrentNote_restores_witness :
  let w := Demo.world true Demo.vault_mapped EmptyString in
  let w' := exec (restoreCurrentNote Demo.host) w in
  List.filter is_request (new_effects w w') =
    [Request "http://localhost:8765/restore" "POST"
       (RestoreBody {| rs_text := Demo.note_text;
                       rs_map := Some Demo.person_map |})].
Proof.
  apply (restoreCurrentNote_restores Demo.host
           (Demo.world true Demo.vault_mapped EmptyString) Demo.note
           (Demo.stringify Demo.stored_map) (Some Demo.person_map)
           Demo.note_text {| restored_text := Demo.note_text |});
    reflexivity.
Defined.

(** X17. When the restore call fails, restoration writes nothing: the
    vault is as it was, the run has sent the one request, logged the
    failure and shown the offline notice, and the service is recorded as
    OFFLINE. *)
Theorem restoreCurrentNote_request_failure host w f raw toks text :
  serverOnline w = true →
  activeFile w = Some f →
  vault w !! mapPath_of (settings w) f = Some (File raw) →
  read_throws host (mapPath_of (settings w) f) = false →
  JSON_parse host raw = Some (JMapFile toks) →
  read_throws host (path f) = false →
  vault w !! path f = Some (File text) →
  service_restore host (serverUrl (settings w) +:+ "/restore")
    {| rs_text := text; rs_map := toks |} = None →
  let w' := exec (restoreCurrentNote host) w in
  vault w' = vault w ∧
  serverOnline w' = false ∧
  new_effects w w' =
    [Request (serverUrl (settings w) +:+ "/restore") "POST"
       (RestoreBody {| rs_text := text; rs_map := toks |});
     ConsoleError "Redactor: /restore request failed";
     Notice offline_notice].
Proof.
  intros Hon Hact Hraw Hrm Hparse Hrf Htext Hnone w'. subst w'.
  unfold exec.
  rewrite (restoreCurrentNote_online host w f raw toks text) by done.
  cbn zeta. rewrite Hnone.
  unfold refreshStatusUI, console_error, new_Notice, emit, bind, get, update,
    ret. cbn.
  split_and!; try done.
  apply new_effects_app. cbn. by rewrite <- !app_assoc.
Qed.

Lemma restoreCurrentNote_request_failure_witness :
  let w := Demo.world true Demo.vault_mapped EmptyString in
  let w' := exec (restoreCurrentNote Demo.host_down) w in
  vault w' = vault w ∧ serverOnline w' = false.
Proof.
  destruct (restoreCurrentNote_request_failure Demo.host_down
              (Demo.world true Demo.vault_mapped EmptyString) Demo.note
              (Demo.stringify Demo.stored_map) (Some Demo.person_map)
              Demo.note_text eq_refl eq_refl eq_refl eq_refl eq_refl eq_refl
              eq_refl eq_refl) as (H1 & H2 & _).
  split; [exact H1 | exact H2].
Defined.

(** The commands on a world whose health flag is down. *)
Lemma commands_when_offline host w f ctx :
  serverOnline w = false →
  let w' := set_log (log w ++ [Notice offline_notice]) w in
  redactFile host f w = (Ok tt, w') ∧
  restoreCurrentNote host w = (Ok tt, w') ∧
  redactSelectedText host ctx w = (Ok tt, w').
Proof.
  intros Hoff w'.
  unfold redactFile, restoreCurrentNote, redactSelectedText, assertOnline,
    new_Notice, emit, bind, get, update, ret.
  cbn. rewrite Hoff. by cbn.
Qed.

(** X18. A failed detect call closes the gate of the orchestrations.
    After whole-document redaction has failed on the service, [redactFile],
    [restoreCurrentNote] and [redactSelectedText] stop at the offline
    notice without sending anything, whatever the service would answer by
    then; the command [redactCurrentNote] sends nothing either (it shows
    the offline notice, or that there is no active file).  The status
    command is not gated: it still sends its [GET /status] and reports
    what it gets.  The gate opens again with the first poll whose probe
    succeeds. *)
Theorem failed_detect_closes_the_gate host later w f text g ctx :
  serverOnline w = true →
  read_throws host (path f) = false →
  vault w !! path f = Some (File text) →
  service_redact host (serverUrl (settings w) +:+ "/redact")
    {| rq_text := text; rq_deep_scan := deepScan (settings w) |} = None →
  let w1 := exec (redactFile host f) w in
  let stopped := set_log (log w1 ++ [Notice offline_notice]) w1 in
  redactFile later g w1 = (Ok tt, stopped) ∧
  restoreCurrentNote later w1 = (Ok tt, stopped) ∧
  redactSelectedText later ctx w1 = (Ok tt, stopped) ∧
  List.filter is_request
    (new_effects w1 (exec (redactCurrentNote later) w1)) = [] ∧
  new_effects w1 (exec (checkServerStatus later) w1) =
    [Request (serverUrl (settings w) +:+ "/status") "GET" NoBody;
     Notice
       match service_status later (serverUrl (settings w) +:+ "/status")
       with
       | Some data => status_online_report data
       | None => status_offline_report
       end] ∧
  (probe_ok later w = true →
   outcome assertOnline (exec (updateServerStatus later) w1) = Ok true).
Proof.
  intros Hon Hread Hfile Hnone w1 stopped.
  assert (H1 : serverOnline w1 = false ∧ settings w1 = settings w).
  { subst w1. unfold exec.
    rewrite (redactFile_online host w f text) by done.
    cbn zeta. rewrite Hnone.
    unfold refreshStatusUI, console_error, new_Notice, emit, bind, get,
      update, ret. by cbn. }
  destruct H1 as [Hoff Hset]. clearbody w1.
  destruct (commands_when_offline later w1 g ctx Hoff) as (? & ? & ?).
  split_and!; try done.
  - unfold exec. rewrite redactCurrentNote_run.
    destruct (activeFile w1) as [a|].
    + destruct (commands_when_offline later w1 a ctx Hoff) as (-> & _).
      cbn. by rewrite (new_effects_app w1 _ [Notice offline_notice]).
    + cbn. by rewrite (new_effects_app w1 _ [Notice "No active file."]).
  - unfold exec. rewrite checkServerStatus_run, <- Hset. cbn.
    by apply new_effects_app.
  - intros Hprobe.
    destruct (updateServerStatus_run later w1) as (t & c & col & E).
    unfold exec. rewrite E. cbn.
    unfold probe_ok in *. rewrite Hset, Hprobe.
    by unfold outcome, assertOnline, bind, get, ret.
Qed.

Lemma failed_detect_closes_the_gate_witness :
  let w1 :=
    exec (redactFile Demo.host_down Demo.note)
      (Demo.world true Demo.vault_mapped "ask Jane Doe") in
  redactSelectedText Demo.host (Some Demo.note) w1 =
    (Ok tt, set_log (log w1 ++ [Notice offline_notice]) w1) ∧
  List.filter is_request
    (new_effects w1 (exec (checkServerStatus Demo.host) w1)) =
    [Request "http://localhost:8765/status" "GET" NoBody] ∧
  outcome assertOnline (exec (updateServerStatus Demo.host) w1) = Ok true.
Proof.
  destruct (failed_detect_closes_the_gate Demo.host_down Demo.host
              (Demo.world true Demo.vault_mapped "ask Jane Doe")
              Demo.note Demo.note_text Demo.note (Some Demo.note)
              eq_refl eq_refl eq_refl eq_refl) as (_ & _ & H3 & _ & H5 & H6).
  split_and!; [exact H3 | by rewrite H5 | apply H6; reflexivity].
Defined.

(** With an [exists] that answers and a [create] that goes through,
    [saveVaultFile] on a free path succeeds. *)
Lemma saveVaultFile_creates host p c w :
  (∀ q, exists_throws host q = false) →
  create_throws host p = false →
  vault w !! p = None →
  ∃ f, outcome (saveVaultFile host p c) w = Ok f.
Proof.
  intros Hex Hcr Hfree.
  destruct (saveVaultFile_prelude host p w Hex) as (wa & E & _ & Hp).
  unfold outcome, saveVaultFile, bind. rewrite E.
  unfold getAbstractFileByPath, vault_create, bind, get, throw, update, emit,
    ret. cbn. rewrite Hp, Hfree. cbn. rewrite Hcr, Hp, Hfree. cbn.
  by eexists.
Qed.

(** X19. Inline redaction in a note that has no map yet starts one: when
    nothing is at the map path and the vault answers [exists] and accepts
    the [create], the run leaves there a map whose tokens are exactly the
    fragment returned by the service, and its messages are the closing
    report alone. *)
Theorem redactSelectedText_starts_a_map host w f r :
  serverOnline w = true →
  JsString.nonempty (ed_selection (editor w)) = true →
  service_redact host (serverUrl (settings w) +:+ "/redact")
    {| rq_text := ed_selection (editor w);
       rq_deep_scan := deepScan (settings w) |} = Some r →
  vault w !! mapPath_of (settings w) f = None →
  (∀ q, exists_throws host q = false) →
  create_throws host (mapPath_of (settings w) f) = false →
  let w' := exec (redactSelectedText host (Some f)) w in
  vault w' !! mapPath_of (settings w) f =
    Some (File (JSON_stringify host
                  {| file := name f;
                     created := now_ISO host;
                     tokens := map r |})) ∧
  messages (new_effects w w') =
    [Notice (selection_report (entity_counts r))].
Proof.
  intros Hon Hsel Hsome Hfree Hex Hcr w'.
  assert (Hmerged : merged_map host w f r =
                    {| file := name f; created := now_ISO host;
                       tokens := map r |}).
  { unfold merged_map, stored_tokens, spread. rewrite Hfree.
    by rewrite (right_id_L ∅ (∪)). }
  destruct (saveVaultFile_creates host (mapPath_of (settings w) f)
              (JSON_stringify host (merged_map host w f r))
              (selection_replaced w r) Hex Hcr Hfree) as (f' & Hok).
  destruct (redactSelectedText_effects host w f r Hon Hsel Hsome)
    as (_ & _ & folders & Hf &
        [(_ & (ev & Hev & Hnew) & Hv) | ((e & Hthrow) & _)]).
  2: { rewrite Hok in Hthrow. discriminate. }
  fold w' in Hnew, Hv. split.
  - by rewrite <- Hmerged.
  - rewrite Hnew, !messages_app, (proj1 (folder_creations_silent _ Hf)).
    by destruct Hev as [-> | ->].
Qed.

Lemma redactSelectedText_starts_a_map_witness :
  let w := Demo.world true Demo.vault_fresh "call 07911 123456" in
  let w' := exec (redactSelectedText Demo.host (Some Demo.note)) w in
  vault w' !! Demo.map_path =
    Some (File (Demo.stringify
                  {| file := "note.md";
                     created := "2026-02-02T12:00:00.000Z";
                     tokens := {[ "[PHONE_1]" := "07911 123456" ]} |})).
Proof.
  apply (redactSelectedText_starts_a_map Demo.host
           (Demo.world true Demo.vault_fresh "call 07911 123456")
           Demo.note Demo.phone_reply); reflexivity.
Defined.

(** ** Settings *)

Lemma startsWith_spec s pre :
  startsWith s pre = true ↔ ∃ rest, s = pre +:+ rest.
Proof.
  revert s. induction pre as [| a pre IH]; intros s.
  { split; [intros _; by exists s | intros _; by destruct s]. }
  destruct s as [| b s]; cbn.
  { split; [done | intros [rest H]; discriminate]. }
  destruct (decide (a = b)) as [<- | Hne].
  - rewrite IH. split; intros [rest H]; exists rest.
    + by rewrite H.
    + by injection H.
  - split; [done |]. intros [rest H]. injection H as H1 _. congruence.
Qed.

(** X20. [isLocalUrl] is a prefix test and nothing more: a URL passes
    exactly when it begins with [http://localhost] or [http://127.0.0.1],
    whatever follows, so a host name that merely starts with [localhost]
    passes and an [https] URL of the local host does not. *)
Theorem isLocalUrl_is_a_prefix_test url :
  isLocalUrl url = true ↔
  ∃ rest, url = "http://localhost" +:+ rest ∨
          url = "http://127.0.0.1" +:+ rest.
Proof.
  unfold isLocalUrl. rewrite orb_true_iff, !startsWith_spec.
  split.
  - intros [[rest H] | [rest H]]; exists rest; tauto.
  - intros [rest [H | H]]; [left | right]; by exists rest.
Qed.

(** X21. Settings survive a save and a load: after [saveSettings] the
    data file holds all five settings, and [loadSettings] brings back
    exactly the settings that were saved.  On a fresh install, with no
    data file, [loadSettings] gives the defaults; a save that the host
    rejects leaves the data file as it was. *)
Theorem settings_round_trip (i : Installed) :
  (let i' := (saveSettings false i).2 in
   (saveSettings false i).1 = Ok tt ∧
   plugin i' = plugin i ∧
   settings (plugin (loadSettings i')) = settings (plugin i)) ∧
  (data_json i = None →
   settings (plugin (loadSettings i)) = DEFAULT_SETTINGS) ∧
  data_json (saveSettings true i).2 = data_json i.
Proof.
  split_and!.
  - cbn. split_and!; try done. by destruct (settings (plugin i)).
  - intros H. cbn. by rewrite H.
  - done.
Qed.

Lemma settings_round_trip_witness :
  settings
    (plugin
       (loadSettings
          {| plugin := Demo.world true Demo.vault_fresh EmptyString;
             data_json := None |})) = DEFAULT_SETTINGS.
Proof.
  apply (settings_round_trip
           {| plugin := Demo.world true Demo.vault_fresh EmptyString;
              data_json := None |}).
  reflexivity.
Defined.

(** X22. Changing the server URL in the settings tab takes effect
    whether or not the address is local: the trimmed value becomes the
    server URL, the other settings are kept, and it is what gets saved.
    The only difference a non-local address makes is one warning
    notice. *)
Theorem onChange_serverUrl_accepts (trim : string → string) throws value i :
  let i' := (onChange_serverUrl trim throws value i).2 in
  let s := settings (plugin i) in
  settings (plugin i') =
    {| serverUrl := trim value;
       redactFolder := redactFolder s;
       restoreFolder := restoreFolder s;
       mapsFolder := mapsFolder s;
       deepScan := deepScan s |} ∧
  new_effects (plugin i) (plugin i') =
    (if isLocalUrl (trim value) then [] else [Notice non_local_warning]) ∧
  (throws = false →
   data_json i' = Some (stored_settings (settings (plugin i')))) ∧
  (throws = true → data_json i' = data_json i).
Proof.
  unfold onChange_serverUrl, saveSettings.
  destruct throws, (isLocalUrl (trim value)); cbn;
    (split_and!; try done; apply new_effects_app; cbn;
     by rewrite ?app_nil_r).
Qed.

Lemma onChange_serverUrl_accepts_witness :
  let i := {| plugin := Demo.world true Demo.vault_fresh EmptyString;
              data_json := None |} in
  data_json (onChange_serverUrl id false "http://example.org" i).2 =
    Some {| p_serverUrl := Some "http://example.org";
            p_redactFolder := Some "redact/redacted";
            p_restoreFolder := Some "redact/reversed";
            p_mapsFolder := Some "redact/maps";
            p_deepScan := Some false |}.
Proof.
  apply (onChange_serverUrl_accepts id false "http://example.org"
           {| plugin := Demo.world true Demo.vault_fresh EmptyString;
              data_json := None |}).
  reflexivity.
Defined.

(** ** The count summary *)

Lemma total_of_from counts : ∀ a,
  foldl (fun a kv => (a + kv.2)%Z) a counts = (a + total_of counts)%Z.
Proof.
  unfold total_of. induction counts as [| kv counts IH]; intros a; cbn.
  - lia.
  - rewrite IH, (IH (0 + kv.2)%Z). lia.
Qed.

Lemma total_of_cons kv counts :
  total_of (kv :: counts) = (kv.2 + total_of counts)%Z.
Proof. unfold total_of at 1. cbn. rewrite total_of_from. lia. Qed.

Lemma total_of_nonzero counts :
  total_of (List.filter nonzero_count counts) = total_of counts.
Proof.
  induction counts as [| kv counts IH]; [done |].
  cbn [List.filter].
  destruct (nonzero_count kv) eqn:E; rewrite !total_of_cons, ?IH; [done |].
  unfold nonzero_count in E. apply negb_false_iff, Z.eqb_eq in E. lia.
Qed.

(** X23. Categories with a count of zero never show: dropping them from
    [entity_counts] changes neither the summary of whole-document
    redaction nor the closing report of inline redaction.  In particular,
    counts that are all zero give the "no entities found" messages, as an
    empty [entity_counts] does. *)
Theorem zero_counts_are_invisible host counts :
  buildCountSummary host (List.filter nonzero_count counts) =
    buildCountSummary host counts ∧
  selection_report (List.filter nonzero_count counts) =
    selection_report counts ∧
  (Forall (fun kv => kv.2 = 0%Z) counts →
   buildCountSummary host counts = "Redacted: no entities found" ∧
   selection_report counts = "No entities found in selection").
Proof.
  assert (Hparts : ∀ f : string * Z → list string,
            (∀ kv, nonzero_count kv = false → f kv = []) →
            flat_map f (List.filter nonzero_count counts) = flat_map f counts).
  { intros f Hf. induction counts as [| kv counts IH]; [done |].
    cbn. destruct (nonzero_count kv) eqn:E; cbn; rewrite IH; [done |].
    by rewrite (Hf kv E). }
  split_and!.
  - unfold buildCountSummary. rewrite total_of_nonzero.
    destruct (total_of counts =? 0)%Z; [done |].
    rewrite Hparts; [done |].
    intros kv E. unfold nonzero_count in E. apply negb_false_iff in E.
    apply Z.eqb_eq in E. by rewrite E.
  - unfold selection_report. by rewrite total_of_nonzero.
  - intros Hzero.
    assert (Htotal : total_of counts = 0%Z).
    { clear Hparts. induction Hzero as [| kv counts Hkv _ IH]; [done |].
      rewrite total_of_cons. lia. }
    unfold buildCountSummary, selection_report. by rewrite Htotal.
Qed.

Lemma zero_counts_are_invisible_witness :
  buildCountSummary Demo.host [("PERSON", 0%Z); ("EMAIL", 0%Z)] =
  "Redacted: no entities found".
Proof.
  apply (zero_counts_are_invisible Demo.host
           [("PERSON", 0%Z); ("EMAIL", 0%Z)]).
  by repeat constructor.
Defined.

(** ** [version-bump.mjs] *)

Section VersionBumpFacts.

Variable V : Type.
Variable str : string → V.
Variable show : V → string.

Abbreviation bump := (VersionBump.bump V str show).
Abbreviation files := (VersionBump.files V).
Abbreviation exit := (VersionBump.exit V).
Abbreviation manifest_json := (VersionBump.manifest_json V).
Abbreviation versions_json := (VersionBump.versions_json V).

(** X24. The script has three ways to fail, and they leave different
    things behind.  Without a version (unset or empty) it exits with
    status 1 and touches no file.  Without a readable manifest it dies
    before writing anything.  Without a readable [versions.json] it dies
    after the manifest has been rewritten with the new version: that
    write is not undone. *)
Theorem bump_failures fs :
  (∀ v, v = None ∨ v = Some EmptyString →
        files (bump v fs) = fs ∧ exit (bump v fs) = VersionBump.Exit1) ∧
  (∀ a v, manifest_json fs = None →
          files (bump (Some (String a v)) fs) = fs ∧
          exit (bump (Some (String a v)) fs) = VersionBump.Uncaught) ∧
  (∀ a v manifest,
     manifest_json fs = Some manifest →
     versions_json fs = None →
     files (bump (Some (String a v)) fs) =
       {| VersionBump.manifest_json :=
            Some (<["version" := str (String a v)]> manifest);
          VersionBump.versions_json := None |} ∧
     exit (bump (Some (String a v)) fs) = VersionBump.Uncaught).
Proof.
  split_and!.
  - by intros v [-> | ->].
  - intros a v H. cbn. by rewrite H.
  - intros a v manifest Hm Hv. cbn. rewrite Hm. cbn. by rewrite Hv.
Qed.

(** X25. A successful bump changes two things and nothing else: the
    manifest gets the new version and keeps every other field,
    [minAppVersion] included; [versions.json] gets, under the new
    version, the manifest's [minAppVersion] and keeps every other entry.
    The one version that gets no entry is [__proto__] when the file has
    none under that name: [versions.json] is then left as it was. *)
Theorem bump_updates fs a v manifest versions :
  manifest_json fs = Some manifest →
  versions_json fs = Some versions →
  let target := String a v in
  let run := bump (Some target) fs in
  exit run = VersionBump.Exit0 ∧
  ∃ manifest' versions',
    files run =
      {| VersionBump.manifest_json := Some manifest';
         VersionBump.versions_json := Some versions' |} ∧
    manifest' !! "version" = Some (str target) ∧
    (∀ k, k ≠ "version" → manifest' !! k = manifest !! k) ∧
    (target ≠ "__proto__" ∨ is_Some (versions !! target) →
     versions' !! target = manifest !! "minAppVersion") ∧
    (target = "__proto__" → versions !! target = None →
     versions' = versions) ∧
    (∀ k, k ≠ target → versions' !! k = versions !! k).
Proof.
  intros Hm Hv target run. subst run. cbn. rewrite Hm. cbn. rewrite Hv.
  split; [done |]. eexists _, _. split; [reflexivity |].
  unfold VersionBump.set_version_entry. fold target. split_and!.
  - apply lookup_insert_eq.
  - intros k Hk. by rewrite lookup_insert_ne.
  - intros Hown. rewrite bool_decide_eq_false_2.
    2: { intros [Hp Hnone]. destruct Hown as [? | [x Hx]]; congruence. }
    destruct (manifest !! "minAppVersion") as [m|].
    + apply lookup_insert_eq.
    + apply lookup_delete_eq.
  - intros Hp Hnone. by rewrite bool_decide_eq_true_2.
  - intros k Hk. case_bool_decide; [done |].
    destruct (manifest !! "minAppVersion") as [m|].
    + by rewrite lookup_insert_ne.
    + by rewrite lookup_delete_ne.
Qed.

(** X26. Bumping is idempotent: running the script a second time with
    the same version leaves the two files exactly as the first run left
    them, whether that run succeeded or failed. *)
Theorem bump_idempotent v fs :
  files (bump v (files (bump v fs))) = files (bump v fs).
Proof.
  destruct v as [[| a v]|]; try done.
  destruct fs as [[manifest|] [versions|]]; cbn; try done.
  - rewrite lookup_insert_ne by done. rewrite insert_insert_eq.
    f_equal. f_equal. unfold VersionBump.set_version_entry.
    set (target := String a v).
    destruct (decide (target = "__proto__" ∧ versions !! target = None))
      as [Hproto | Hproto].
    { by rewrite !(bool_decide_eq_true_2 _ Hproto). }
    rewrite !(bool_decide_eq_false_2 _ Hproto).
    destruct (manifest !! "minAppVersion") as [m|].
    + rewrite bool_decide_eq_false_2.
      * by rewrite insert_insert_eq.
      * intros [_ Hnone]. by rewrite lookup_insert_eq in Hnone.
    + case_bool_decide; [done | by rewrite delete_delete_eq].
  - by rewrite insert_insert_eq.
Qed.

End VersionBumpFacts.

Lemma bump_updates_witness :
  VersionBump.exit string
    (VersionBump.bump string id id (Some "1.0.1")
       {| VersionBump.manifest_json :=
            Some {[ "version" := "1.0.0"; "minAppVersion" := "1.4.0" ]};
          VersionBump.versions_json := Some {[ "1.0.0" := "1.4.0" ]} |}) =
  VersionBump.Exit0.
Proof.
  apply (bump_updates string id id
           {| VersionBump.manifest_json :=
                Some {[ "version" := "1.0.0"; "minAppVersion" := "1.4.0" ]};
              VersionBump.versions_json := Some {[ "1.0.0" := "1.4.0" ]} |}
           "1"%char ".0.1"
           {[ "version" := "1.0.0"; "minAppVersion" := "1.4.0" ]}
           {[ "1.0.0" := "1.4.0" ]}); reflexivity.
Defined.

Lemma bump_failures_witness :
  VersionBump.exit string
    (VersionBump.bump string id id None
       {| VersionBump.manifest_json := None;
          VersionBump.versions_json := None |}) = VersionBump.Exit1.
Proof.
  apply (bump_failures string id id
           {| VersionBump.manifest_json := None;
              VersionBump.versions_json := None |}).
  by left.
Defined.
